From Stdlib Require Import ZArith QArith Lia Sorted Permutation Ascii.
From stdpp Require Import gmap strings list fin_maps.

Open Scope string_scope.
Open Scope list_scope.

(** * seagliderOG1: dataset assembly and harmonisation

    A shallow embedding of [seagliderOG1/fetchers.py] (file selection,
    trajectory repair, GPS alignment, dimension dropping, concatenation and
    time sorting) and of the unit tables of [seagliderOG1/vocabularies.py],
    followed by the properties of that code.

    Conventions of the embedding:
    - an [xarray.Dataset] is its dictionary of variables, a finite map from
      names to arrays; its dimension table [ds.dims] is recomputed from the
      variables, as xarray does;
    - an array is kept flat, with its dimensions and their sizes and its
      attribute dictionary;
    - an array element is either the missing value (NaN) or a number; the
      code copies, compares and subtracts elements, so numbers are exact
      integers (clock ticks for times, scaled units for the rest);
    - the library calls the code makes ([argmin], [drop_dims], [xr.concat],
      [sortby], NumPy assignment) follow the documented behaviour of xarray
      and NumPy on such arrays;
    - Python exceptions are the [Raise] results of the [result] monad. *)

(** ** Exceptions *)

Inductive exn := KeyError | ValueError | IndexError | AttributeError.

Inductive result (A : Type) :=
  | Ok (a : A)
  | Raise (e : exn).
Arguments Ok {A} a.
Arguments Raise {A} e.

#[global] Instance result_ret : MRet result := fun A a => Ok a.

#[global] Instance result_bind : MBind result := fun A B k r =>
  match r with
  | Ok a => k a
  | Raise e => Raise e
  end.

Definition of_option {A} (e : exn) (o : option A) : result A :=
  match o with
  | Some a => Ok a
  | None => Raise e
  end.

Definition to_option {A} (r : result A) : option A :=
  match r with
  | Ok a => Some a
  | Raise _ => None
  end.

(** ** File selection ([load_dataset], the loop over [file_list]) *)

Module FileSelector.

(** [s.endswith(suffix)] *)
Definition endswith (s suffix : string) : bool :=
  let n := String.length s in
  let k := String.length suffix in
  (k <=? n)%nat && String.eqb (String.substring (n - k) k s) suffix.

(** [s.split("_")[0]]: the characters before the first underscore, or the
    whole string when it has none. *)
Fixpoint split_first (s : string) : string :=
  match s with
  | EmptyString => EmptyString
  | String c r => if Ascii.eqb c "_"%char then EmptyString else String c (split_first r)
  end.

(** [s[n:]] *)
Fixpoint slice_from (n : nat) (s : string) : string :=
  match n, s with
  | O, _ => s
  | S n', EmptyString => EmptyString
  | S n', String _ r => slice_from n' r
  end.

Section Selector.

(** Python's built-in [int] on strings: [Raise ValueError] when the text
    is not an integer literal. *)
Variable int : string -> result Z.

(** [int(file.split("_")[0][4:])] *)
Definition profile_number (file : string) : result Z :=
  int (slice_from 4 (split_first file)).

(** The four-way branch on [start_profile] and [end_profile]. *)
Definition in_profile_range (start_profile end_profile : option Z) (p : Z) : bool :=
  match start_profile, end_profile with
  | Some s, Some e => (s <=? p)%Z && (p <=? e)%Z
  | Some s, None => (p >=? s)%Z
  | None, Some e => (p <=? e)%Z
  | None, None => true
  end.

(** The first loop of [load_dataset]: [filtered_files], in listing order. *)
Fixpoint select_files (start_profile end_profile : option Z)
    (file_list : list string) : result (list string) :=
  match file_list with
  | [] => Ok []
  | file :: rest =>
      if endswith file ".nc" then
        p ← profile_number file;
        sel ← select_files start_profile end_profile rest;
        Ok (if in_profile_range start_profile end_profile p
            then file :: sel else sel)
      else select_files start_profile end_profile rest
  end.

(** The candidates: entries of the listing with the expected extension. *)
Definition candidates (file_list : list string) : list string :=
  List.filter (fun f => endswith f ".nc") file_list.

End Selector.

(** [int] on plain ASCII text: optional surrounding white space, an optional
    sign, then one or more decimal digits.  (Digit-group underscores cannot
    reach [int] here: the text is cut before the first underscore.) *)
Definition is_space (c : Ascii.ascii) : bool :=
  let n := Ascii.nat_of_ascii c in
  ((9 <=? n) && (n <=? 13) || (28 <=? n) && (n <=? 32))%nat.

Definition digit_of (c : Ascii.ascii) : option Z :=
  let n := Ascii.nat_of_ascii c in
  if ((48 <=? n) && (n <=? 57))%nat then Some (Z.of_nat (n - 48)) else None.

Fixpoint lstrip (s : list Ascii.ascii) : list Ascii.ascii :=
  match s with
  | c :: r => if is_space c then lstrip r else s
  | [] => []
  end.

Definition strip (s : list Ascii.ascii) : list Ascii.ascii := rev (lstrip (rev (lstrip s))).

Fixpoint digits (acc : Z) (s : list Ascii.ascii) : option Z :=
  match s with
  | [] => Some acc
  | c :: r => match digit_of c with
              | Some d => digits (10 * acc + d) r
              | None => None
              end
  end.

Definition unsigned (s : list Ascii.ascii) : option Z :=
  match s with
  | [] => None
  | _ => digits 0 s
  end.

Definition py_int (s : string) : result Z :=
  of_option ValueError
    match strip (String.list_ascii_of_string s) with
    | c :: r =>
        if Ascii.eqb c "-"%char then Z.opp <$> unsigned r
        else if Ascii.eqb c "+"%char then unsigned r
        else unsigned (c :: r)
    | [] => None
    end.

End FileSelector.

(** ** Arrays and datasets *)

(** One array element: [NaN] is the missing value. *)
Inductive cell := NaN | Num (x : Z).

#[global] Instance cell_eq_dec : EqDecision cell.
Proof. solve_decision. Defined.

Definition is_present (c : cell) : bool :=
  match c with NaN => false | Num _ => true end.

(** Number of non-missing entries of an array. *)
Definition count_present (xs : list cell) : nat :=
  length (List.filter is_present xs).

(** A variable of a dataset: its dimensions, each with the size along it
    ([v.sizes]), the elements in storage order, and the attribute
    dictionary. *)
Record DataArray := mkDataArray {
  sizes : list (string * nat);
  values : list cell;
  attrs : gmap string string
}.

(** [v.dims] and [v.shape] *)
Definition dims (v : DataArray) : list string := (sizes v).*1.
Definition shape (v : DataArray) : list nat := (sizes v).*2.

(** A dataset is its dictionary of variables. *)
Abbreviation Dataset := (gmap string DataArray).

(** [(['d'], np.full(n, np.nan))]: a fresh one-dimensional array of [n]
    missing values, without attributes. *)
Definition full_nan (d : string) (n : nat) : DataArray :=
  {| sizes := [(d, n)]; values := replicate n NaN; attrs := ∅ |}.

(** Every (dimension, size) pair of every variable. *)
Definition all_sizes (ds : Dataset) : list (string * nat) :=
  mjoin ((fun kv => sizes kv.2) <$> map_to_list ds).

(** [ds.dims]: every dimension used by a variable, with its size. *)
Definition ds_dims (ds : Dataset) : gmap string nat :=
  list_to_map (all_sizes ds).

(** xarray only builds datasets whose variables agree on the size of each
    shared dimension. *)
Definition consistent (ds : Dataset) : Prop :=
  Forall (fun p => Forall (fun q => p.1 = q.1 -> p.2 = q.2) (all_sizes ds))
    (all_sizes ds).

(** [ds[name]] *)
Definition getitem (ds : Dataset) (name : string) : result DataArray :=
  of_option KeyError (ds !! name).

(** [ds.name] *)
Definition getattr (ds : Dataset) (name : string) : result DataArray :=
  of_option AttributeError (ds !! name).

(** [ds.dims[d]] *)
Definition dim_size (ds : Dataset) (d : string) : result nat :=
  of_option KeyError (ds_dims ds !! d).

Definition sg_data_point : string := "sg_data_point".

(** ** Trajectory repair ([repeat_trajectory_vars]) *)

(** [target[:] = source] for a one-dimensional target of [n] elements:
    NumPy broadcasts a zero-dimensional or one-element source, copies a
    source of the same length, and refuses anything else. *)
Definition assign_all (n : nat) (source : DataArray) : result (list cell) :=
  match shape source with
  | [] =>
      match values source with
      | [v] => Ok (replicate n v)
      | _ => Raise ValueError
      end
  | [k] =>
      if decide (length (values source) = n) then Ok (values source)
      else match values source with
           | [v] => Ok (replicate n v)
           | _ => Raise ValueError
           end
  | _ => Raise ValueError
  end.

Definition repeat_trajectory_vars (ds : Dataset) : result Dataset :=
  trajectory ← getitem ds "trajectory";
  trajectory_comment ← of_option KeyError (attrs trajectory !! "comment");
  n ← dim_size ds sg_data_point;
  let ds := <["trajectory" := full_nan sg_data_point n]> ds in
  filled ← assign_all n trajectory;
  Ok (<["trajectory" :=
          {| sizes := [(sg_data_point, n)]; values := filled;
             attrs := <["comment" := trajectory_comment]> ∅ |}]> ds).

(** ** GPS alignment ([add_gps_coordinates]) *)

Definition cell_sub (a b : cell) : cell :=
  match a, b with
  | Num x, Num y => Num (x - y)
  | _, _ => NaN
  end.

Definition cell_abs (a : cell) : cell :=
  match a with
  | Num x => Num (Z.abs x)
  | NaN => NaN
  end.

(** [np.abs(ctd_time - gps_time)] *)
Definition time_diff (ctd_time : list cell) (gps_time : cell) : list cell :=
  (fun t => cell_abs (cell_sub t gps_time)) <$> ctd_time.

(** The scan behind [argmin]: [best] is the position and value of the
    smallest entry seen so far, replaced only by a strictly smaller one;
    missing entries are skipped, as xarray does for floating-point data. *)
Fixpoint argmin_from (i : nat) (best : option (nat * Z)) (xs : list cell)
    : option (nat * Z) :=
  match xs with
  | [] => best
  | NaN :: rest => argmin_from (S i) best rest
  | Num x :: rest =>
      match best with
      | Some (_, b) =>
          if (x <? b)%Z then argmin_from (S i) (Some (i, x)) rest
          else argmin_from (S i) best rest
      | None => argmin_from (S i) (Some (i, x)) rest
      end
  end.

(** [xs.argmin().item()]: [ValueError] on an empty or all-missing array. *)
Definition argmin (xs : list cell) : result nat :=
  of_option ValueError (fst <$> argmin_from 0 None xs).

Definition find_nearest_index (ds : Dataset) (gps_time : cell) : result nat :=
  ctd_time ← getitem ds "ctd_time";
  argmin (time_diff (values ctd_time) gps_time).

(** The same variable with its elements replaced. *)
Definition with_values (arr : DataArray) (vs : list cell) : DataArray :=
  {| sizes := sizes arr; values := vs; attrs := attrs arr |}.

(** [ds[name][i] = v], with NumPy's bounds check. *)
Definition setitem_at (ds : Dataset) (name : string) (i : nat) (v : cell)
    : result Dataset :=
  arr ← getitem ds name;
  if decide (i < length (values arr)) then
    Ok (<[name := with_values arr (<[i := v]> (values arr))]> ds)
  else Raise IndexError.

(** [zip(times, lats, lons)]: as long as the shortest of the three. *)
Fixpoint zip3 (ts las los : list cell) : list (cell * cell * cell) :=
  match ts, las, los with
  | t :: ts', la :: las', lo :: los' => (t, la, lo) :: zip3 ts' las' los'
  | _, _, _ => []
  end.

(** The [for] loop of [add_gps_coordinates], one fix per iteration. *)
Fixpoint fill_gps (fixes : list (cell * cell * cell)) (ds : Dataset)
    : result Dataset :=
  match fixes with
  | [] => Ok ds
  | (gps_time, gps_lat, gps_lon) :: rest =>
      nearest_index ← find_nearest_index ds gps_time;
      ds ← setitem_at ds "gps_lat" nearest_index gps_lat;
      ds ← setitem_at ds "gps_lon" nearest_index gps_lon;
      ds ← setitem_at ds "gps_time" nearest_index gps_time;
      fill_gps rest ds
  end.

Definition add_gps_coordinates (ds : Dataset) : result Dataset :=
  n ← dim_size ds sg_data_point;
  let ds := <["gps_lat" := full_nan sg_data_point n]> ds in
  n ← dim_size ds sg_data_point;
  let ds := <["gps_lon" := full_nan sg_data_point n]> ds in
  n ← dim_size ds sg_data_point;
  let ds := <["gps_time" := full_nan sg_data_point n]> ds in
  log_gps_time ← getattr ds "log_gps_time";
  log_gps_lat ← getattr ds "log_gps_lat";
  log_gps_lon ← getattr ds "log_gps_lon";
  fill_gps (zip3 (values log_gps_time) (values log_gps_lat) (values log_gps_lon)) ds.

(** ** Dropping the other dimensions ([drop_dims]) *)

(** [set(ds.dims).difference([d])] *)
Definition dims_other_than (ds : Dataset) (d : string) : gset string :=
  dom (ds_dims ds) ∖ {[d]}.

(** [ds.drop_dims(drop)]: xarray drops every variable that uses one of the
    dimensions in [drop] (the variables [v] with [set(v.dims) & drop]
    non-empty) and keeps the others as they are.  The names in [drop] come
    from [ds.dims] here, so its check that they are dimensions of the
    dataset always passes. *)
Definition drop_dims (ds : Dataset) (drop : gset string) : Dataset :=
  filter (fun kv => (list_to_set (dims kv.2) : gset string) ∩ drop = ∅) ds.

(** The body of the per-file loop of [load_dataset], after the file is
    opened. *)
Definition process_dive (ds : Dataset) : result Dataset :=
  ds ← repeat_trajectory_vars ds;
  ds ← add_gps_coordinates ds;
  Ok (drop_dims ds (dims_other_than ds sg_data_point)).

(** ** Concatenation and sorting ([xr.concat], [sortby]) *)

(** The length a dataset contributes along [dim]: [ds.sizes.get(dim, 1)]. *)
Definition concat_len (ds : Dataset) (dim : string) : nat :=
  default 1 (ds_dims ds !! dim).

(** The elements one variable contributes: its own when it lies on [dim],
    and otherwise its elements repeated along the new leading axis (a scalar
    is broadcast to the length of its dataset). *)
Definition expand (dim : string) (n : nat) (v : DataArray) : list cell :=
  if decide (dim ∈ dims v) then values v else mjoin (replicate n (values v)).

(** The stretch of the concatenated variable [name] that comes from [ds]:
    with the default outer join a variable that [ds] lacks is filled with
    missing values. *)
Definition piece (dim : string) (name : string) (ds : Dataset) : list cell :=
  match ds !! name with
  | Some v => expand dim (concat_len ds dim) v
  | None => replicate (concat_len ds dim) NaN
  end.

(** [xr.concat(datasets, dim=dim)] on datasets whose variables are scalars
    or one-dimensional on [dim], the only ones [drop_dims] lets through:
    every variable of any dataset, stretch after stretch in the order of the
    datasets, with the attributes of its first occurrence. *)
Definition concat (datasets : list Dataset) (dim : string) : result Dataset :=
  match datasets with
  | [] => Raise ValueError
  | _ =>
      let total := sum_list ((fun ds => concat_len ds dim) <$> datasets) in
      Ok (map_imap (fun name v =>
            Some {| sizes := [(dim, total)];
                    values := mjoin (piece dim name <$> datasets);
                    attrs := attrs v |})
          (⋃ datasets))
  end.

(** The order of [np.lexsort] on one key: ascending, missing values last. *)
Definition sort_le (a b : cell) : bool :=
  match a, b with
  | Num x, Num y => (x <=? y)%Z
  | _, NaN => true
  | NaN, Num _ => false
  end.

(** Stable insertion of a (key, position) pair into a sorted list: before
    the first entry whose key is not smaller. *)
Fixpoint insert_key (x : cell * nat) (l : list (cell * nat)) : list (cell * nat) :=
  match l with
  | [] => [x]
  | y :: l' => if sort_le x.1 y.1 then x :: y :: l' else y :: insert_key x l'
  end.

Definition sort_pairs (l : list (cell * nat)) : list (cell * nat) :=
  foldr insert_key [] l.

(** [np.lexsort((keys,))]: the positions of [keys] in stable ascending
    order. *)
Definition lexsort (keys : list cell) : list nat :=
  (sort_pairs (zip keys (seq 0 (length keys)))).*2.

(** [xs[order]] *)
Definition take_at (order : list nat) (xs : list cell) : list cell :=
  (fun i => default NaN (xs !! i)) <$> order.

(** [v.isel({d: order})] for a variable that is one-dimensional on [d] or
    does not use [d]. *)
Definition isel (d : string) (order : list nat) (v : DataArray) : DataArray :=
  if decide (d ∈ dims v) then with_values v (take_at order (values v)) else v.

(** [ds.sortby(name)]: the key must be one-dimensional. *)
Definition sortby (ds : Dataset) (name : string) : result Dataset :=
  key ← getitem ds name;
  match sizes key with
  | [(d, _)] => Ok (isel d (lexsort (values key)) <$> ds)
  | _ => Raise ValueError
  end.

(** The last two statements of [load_dataset]. *)
Definition assemble (datasets : list Dataset) : result Dataset :=
  ds_all ← concat datasets sg_data_point;
  sortby ds_all "ctd_time".

(** ** [load_dataset] *)

(** [load_dataset] from the directory listing on: [open_dataset] is the
    external reader ([xr.open_dataset] or [load_sample_dataset]). *)
Definition load_dataset (open_dataset : string -> result Dataset)
    (file_list : list string) (start_profile end_profile : option Z)
    : result Dataset :=
  filtered_files ← FileSelector.select_files FileSelector.py_int
                     start_profile end_profile file_list;
  datasets ← mapM (fun file => ds ← open_dataset file; process_dive ds)
                  filtered_files;
  assemble datasets.

(** ** Unit conversions ([vocabularies.unit_conversion]) *)

Record conversion := { units_name : string; factor : Q }.

(** A dictionary display: the entries are stored from left to right, a
    repeated key replacing the value stored before. *)
Definition dict_literal {V} (entries : list (string * V)) : gmap string V :=
  foldl (fun d kv => <[kv.1 := kv.2]> d) ∅ entries.

Definition unit_conversion : gmap string conversion :=
  dict_literal [
    ("cm/s", {| units_name := "m/s"; factor := 1 # 100 |});
    ("cm s-1", {| units_name := "m s-1"; factor := 1 # 100 |});
    ("m/s", {| units_name := "cm/s"; factor := 100 |});
    ("m s-1", {| units_name := "cm s-1"; factor := 100 |});
    ("S/m", {| units_name := "mS/cm"; factor := 1 # 10 |});
    ("S m-1", {| units_name := "mS cm-1"; factor := 1 # 10 |});
    ("mS/cm", {| units_name := "S/m"; factor := 10 |});
    ("mS cm-1", {| units_name := "S m-1"; factor := 10 |});
    ("dbar", {| units_name := "Pa"; factor := 10000 |});
    ("Pa", {| units_name := "dbar"; factor := 1 # 10000 |});
    ("dbar", {| units_name := "kPa"; factor := 10 |})
  ]%Q.

(** ** The other functions of [fetchers.py] *)


(** The loop of [list_files_in_https_server] over the anchors of the page:
    [hrefs] holds [link.get("href")] for each anchor, [None] when the
    anchor has no such attribute. *)
Fixpoint nc_links (hrefs : list (option string)) : list string :=
  match hrefs with
  | [] => []
  | href :: rest =>
      match href with
      | Some h =>
          if negb (String.eqb h "") && FileSelector.endswith h ".nc"
          then h :: nc_links rest else nc_links rest
      | None => nc_links rest
      end
  end.

(** [list_files_in_https_server]: [get_anchors] stands for the request and
    the parsing of the page, and raises when the request fails. *)
Definition list_files_in_https_server
    (get_anchors : string -> result (list (option string))) (url : string)
    : result (list string) :=
  hrefs ← get_anchors url;
  Ok (nc_links hrefs).

(** [create_pooch_registry_from_directory], on the listing [files] of the
    directory: [file_hash] stands for [pooch.file_hash(..., alg="sha256")]
    and [path_join] for [os.path.join]. *)
Definition create_pooch_registry_from_directory
    (file_hash : string -> string) (path_join : string -> string -> string)
    (directory : string) (files : list string) : gmap string string :=
  foldl (fun registry file =>
           if FileSelector.endswith file ".nc"
           then <[file := "sha256:" +:+ file_hash (path_join directory file)]> registry
           else registry)
        ∅ files.

(** [load_sample_dataset]: [registry] is the registry of [data_source_og],
    and [fetch_open] stands for fetching the file and opening it. *)
Definition load_sample_dataset (registry : gmap string string)
    (fetch_open : string -> result Dataset) (dataset_name : string)
    : result Dataset :=
  if decide (dataset_name ∈ dom registry) then fetch_open dataset_name
  else Raise ValueError.

(** [source.startswith(prefix)] *)
Definition startswith (s prefix : string) : bool :=
  String.prefix prefix s.

Definition is_url (source : string) : bool :=
  startswith source "http://" || startswith source "https://".

(** What [load_dataset] reaches outside for. *)
Record collaborators := {
  get_anchors : string -> result (list (option string));
  isdir : string -> bool;
  listdir : string -> list string;
  registry : gmap string string;
  fetch_open : string -> result Dataset;
  open_dataset : string -> result Dataset;
  path_join : string -> string -> string
}.

(** [load_dataset] as a whole: the listing for a URL or a local directory,
    then the selection, the per-file work and the assembly.  Files of a URL
    source are loaded through [load_sample_dataset]. *)
Definition load_dataset_from (env : collaborators) (source : string)
    (start_profile end_profile : option Z) : result Dataset :=
  file_list ←
    (if is_url source then list_files_in_https_server (get_anchors env) source
     else if isdir env source then Ok (listdir env source)
     else Raise ValueError);
  load_dataset
    (fun file =>
       if is_url source
       then load_sample_dataset (registry env) (fetch_open env) file
       else open_dataset env (path_join env source file))
    file_list start_profile end_profile.

(** ** The other tables of [vocabularies.py] *)

Definition dims_rename_dict : gmap string string :=
  dict_literal [("sg_data_point", "N_MEASUREMENTS")].

Definition preferred_units : list string := ["m s-1"; "dbar"; "S m-1"].

Definition unit_str_format : gmap string string :=
  dict_literal [
    ("m/s", "m s-1");
    ("cm/s", "cm s-1");
    ("S/m", "S m-1");
    ("meters", "m");
    ("degrees_Celcius", "Celcius")
  ].

Definition standard_names : gmap string string :=
  dict_literal [
    ("latitude", "LATITUDE");
    ("longitude", "LONGITUDE");
    ("gps_lat", "LATITUDE_GPS");
    ("gps_lon", "LONGITUDE_GPS");
    ("gps_time", "TIME_GPS");
    ("ctd_time", "TIME");
    ("eng_pitchAng", "PITCH");
    ("eng_rollAng", "ROLL");
    ("eng_head", "HEADING");
    ("ctd_depth", "DEPTH");
    ("pressure", "PRES");
    ("conductivity", "CNDC");
    ("temperature", "TEMP");
    ("salinity", "PSAL");
    ("ctd_density", "POTDENS0");
    ("profile_index", "PROFILE_NUMBER");
    ("vert_speed", "GLIDER_VERT_VELO_MODEL");
    ("horz_speed", "GLIDER_HORZ_VELO_MODEL");
    ("speed", "GLIDE_SPEED");
    ("glide_angle", "GLIDE_ANGLE")
  ].

Definition vars_to_remove : list string := [
  "dissolved_oxygen_sat"; "depth"; "eng_depth"; "eng_elaps_t";
  "eng_elaps_t_0000"; "latitude_gsm"; "longitude_gsm"; "sigma_t";
  "sigma_theta"; "sound_velocity"; "theta"; "time"; "eng_sbect_condFreq";
  "eng_sbect_tempFreq"; "glide_angle_gsm"; "horz_speed_gsm";
  "north_displacement_gsm"; "east_displacement_gsm"; "speed_gsm";
  "vert_speed_gsm"; "dive_num_cast"; "density"
].

(** * Vocabulary of the properties *)

Definition dim_agrees (ds : Dataset) (d : string) (n : nat) : Prop :=
  forall x v m, ds !! x = Some v -> (d, m) ∈ sizes v -> m = n.

(** A sequence of element assignments [arr[i] = v], applied in order. *)
Definition writes (arr : list cell) (ws : list (nat * cell)) : list cell :=
  foldl (fun a w => <[w.1 := w.2]> a) arr ws.


(** The three aligned variables. *)
Definition aligned (x : string) : Prop :=
  x = "gps_lat" \/ x = "gps_lon" \/ x = "gps_time".

(** The latitude, longitude and time columns of the list of fixes. *)
Definition fix_time (fx : cell * cell * cell) : cell := fx.1.1.
Definition fix_lat (fx : cell * cell * cell) : cell := fx.1.2.
Definition fix_lon (fx : cell * cell * cell) : cell := fx.2.

(** The array an aligned variable ends up as: [n] missing values, then the
    assignments [ws] in order. *)
Definition aligned_array (n : nat) (ws : list (nat * cell)) : DataArray :=
  {| sizes := [(sg_data_point, n)];
     values := writes (replicate n NaN) ws; attrs := ∅ |}.

(** The fixes of a dive, as the loop of [add_gps_coordinates] sees them. *)
Definition fixes_of (lt la lo : DataArray) : list (cell * cell * cell) :=
  zip3 (values lt) (values la) (values lo).




(** The entry of [u], when its target unit is itself a key, is mirrored by
    the entry of the target: back to [u], with the inverse factor. *)
Definition mutually_inverse (table : gmap string conversion) (u : string) : Prop :=
  forall c, table !! u = Some c ->
  forall c', table !! units_name c = Some c' ->
  units_name c' = u /\ (factor c' == 1 / factor c)%Q.

(** [a] comes before [b] in a stable ascending sort: its key is smaller, or
    the keys are the same and it came first. *)
Definition before (a b : cell * nat) : Prop :=
  sort_le a.1 b.1 = true /\ (sort_le b.1 a.1 = true -> a.2 < b.2).

(** A variable of a reconciled dive of [n] samples: one-dimensional on the
    measurement axis with [n] elements, or a scalar. *)
Definition on_axis (n : nat) (v : DataArray) : Prop :=
  (sizes v = [(sg_data_point, n)] /\ length (values v) = n) \/
  (sizes v = [] /\ length (values v) = 1).

(** A dive record as it reaches [xr.concat]: every variable is on the
    measurement axis of length [n] or a scalar, and the measurement times
    are on the axis. *)
Definition measurement_record (n : nat) (ds : Dataset) : Prop :=
  map_Forall (fun _ v => on_axis n v) ds /\
  sizes <$> ds !! "ctd_time" = Some [(sg_data_point, n)].

(** The concatenated variable [x], before sorting. *)
Definition column (datasets : list Dataset) (x : string) : list cell :=
  mjoin (piece sg_data_point x <$> datasets).

(** The assembled dataset: every variable of any dive, its column taken in
    the stable ascending order of the concatenated measurement times. *)
Definition assembled (datasets : list Dataset) (total : nat) : Dataset :=
  map_imap (fun x v =>
      Some {| sizes := [(sg_data_point, total)];
              values := take_at (lexsort (column datasets "ctd_time"))
                          (column datasets x);
              attrs := attrs v |})
    (⋃ datasets).

(** [order] lists the positions of [keys] in stable ascending order. *)
Definition stable_order (keys : list cell) (order : list nat) : Prop :=
  order ≡ₚ seq 0 (length keys) /\
  forall i j p q,
    i < j -> order !! i = Some p -> order !! j = Some q ->
    exists a b, keys !! p = Some a /\ keys !! q = Some b /\
      sort_le a b = true /\ (a = b -> p < q).

(** The elements of an array fill its shape, and no dimension is used
    twice. *)
Definition well_shaped (v : DataArray) : Prop :=
  NoDup (dims v) /\ length (values v) = foldr Nat.mul 1 (shape v).


(** * Example data *)

(** One-dimensional array literal. *)
Definition array1 (d : string) (xs : list cell) : DataArray :=
  {| sizes := [(d, length xs)]; values := xs; attrs := ∅ |}.

Definition nums (zs : list Z) : list cell := Num <$> zs.

(** Dive A of the specification's scenario: samples at 100, 200, 300 and
    one fix at 150 with latitude 10 and longitude 20. *)
Definition diveA : Dataset :=
  <["ctd_time" := array1 sg_data_point (nums [100; 200; 300]%Z)]>
  (<["log_gps_time" := array1 "gps_info" (nums [150]%Z)]>
  (<["log_gps_lat" := array1 "gps_info" (nums [10]%Z)]>
  (<["log_gps_lon" := array1 "gps_info" (nums [20]%Z)]> ∅))).

(** Two fixes, at 110 and 120, both nearest to the sample at 100. *)
Definition dive_collision : Dataset :=
  <["ctd_time" := array1 sg_data_point (nums [100; 200; 300]%Z)]>
  (<["log_gps_time" := array1 "gps_info" (nums [110; 120]%Z)]>
  (<["log_gps_lat" := array1 "gps_info" (nums [10; 11]%Z)]>
  (<["log_gps_lon" := array1 "gps_info" (nums [20; 21]%Z)]> ∅))).


(** No fix at all. *)
Definition dive_no_fix : Dataset :=
  <["ctd_time" := array1 sg_data_point (nums [100; 200]%Z)]>
  (<["log_gps_time" := array1 "gps_info" []]>
  (<["log_gps_lat" := array1 "gps_info" []]>
  (<["log_gps_lon" := array1 "gps_info" []]> ∅))).

(** The dataset a successful run returns (empty after an exception). *)
Definition returned (r : result Dataset) : Dataset :=
  match r with
  | Ok ds => ds
  | Raise _ => ∅
  end.

Ltac by_evaluation := apply (bool_decide_unpack _); vm_compute; exact I.

(** A dive with a scalar, a profile on the measurement axis and a table
    that has a second dimension next to the measurement axis. *)
Definition dive_mixed : Dataset :=
  <["ctd_time" := array1 sg_data_point (nums [100; 200]%Z)]>
  (<["log_gps_time" := array1 "gps_info" (nums [150]%Z)]>
  (<["avg_latitude" :=
       {| sizes := []; values := nums [45]%Z; attrs := ∅ |}]>
  (<["spectra" :=
       {| sizes := [(sg_data_point, 2); ("bin", 2)];
          values := nums [1; 2; 3; 4]%Z; attrs := ∅ |}]> ∅))).


(** The usual layout: one element on a dimension of its own. *)
Definition dive_trajectory : Dataset :=
  <["ctd_time" := array1 sg_data_point (nums [100; 200; 300]%Z)]>
  (<["trajectory" :=
       {| sizes := [("trajectory", 1)]; values := nums [7]%Z;
          attrs := <["units" := "1"]> {["comment" := "dive number"]} |}]> ∅).

(** The directory of the specification's scenario: profiles 5, 15 and 25. *)
Definition listing_5_15_25 : list string :=
  ["p0150005_20050213.nc"; "p0150015_20050301.nc"; "p0150025_20050317.nc"].

(** The two dives of the specification's scenario, after alignment and
    reconciliation. *)
Definition recordA : Dataset :=
  <["ctd_time" := array1 sg_data_point (nums [100; 200; 300]%Z)]>
  (<["gps_lat" := array1 sg_data_point [Num 10; NaN; NaN]]>
  (<["gps_lon" := array1 sg_data_point [Num 20; NaN; NaN]]>
  (<["gps_time" := array1 sg_data_point [Num 150; NaN; NaN]]> ∅))).

Definition recordB : Dataset :=
  <["ctd_time" := array1 sg_data_point (nums [50; 250]%Z)]>
  (<["gps_lat" := array1 sg_data_point [Num 30; NaN]]>
  (<["gps_lon" := array1 sg_data_point [Num 40; NaN]]>
  (<["gps_time" := array1 sg_data_point [Num 60; NaN]]> ∅))).



(** A dive without samples that logged one fix. *)
Definition dive_no_sample : Dataset :=
  <["ctd_time" := array1 sg_data_point []]>
  (<["log_gps_time" := array1 "gps_info" (nums [150]%Z)]>
  (<["log_gps_lat" := array1 "gps_info" (nums [10]%Z)]>
  (<["log_gps_lon" := array1 "gps_info" (nums [20]%Z)]> ∅))).

(** A whole dive file: measurement times and a temperature on the
    measurement axis, three logged fixes and a one-element trajectory. *)
Definition dive_file : Dataset :=
  <["ctd_time" := array1 sg_data_point (nums [100; 200; 300]%Z)]>
  (<["temperature" := array1 sg_data_point (nums [7; 8; 9]%Z)]>
  (<["log_gps_time" := array1 "gps_info" (nums [90; 110; 310]%Z)]>
  (<["log_gps_lat" := array1 "gps_info" (nums [10; 11; 12]%Z)]>
  (<["log_gps_lon" := array1 "gps_info" (nums [20; 21; 22]%Z)]>
  (<["trajectory" :=
       {| sizes := [("trajectory", 1)]; values := nums [7]%Z;
          attrs := {["comment" := "dive number"]} |}]> ∅))))).

(** A dive whose second sample has no time. *)
Definition record_missing_time : Dataset :=
  <["ctd_time" := array1 sg_data_point [Num 100; NaN; Num 50]]> ∅.


(** A source that lists one file, with an empty registry. *)
Definition env_unregistered : collaborators :=
  {| get_anchors := fun _ => Ok [Some "p0150015_20050301.nc"; None];
     isdir := fun _ => false;
     listdir := fun _ => [];
     registry := ∅;
     fetch_open := fun _ => Ok dive_file;
     open_dataset := fun _ => Ok dive_file;
     path_join := fun d f => d +:+ "/" +:+ f |}.

(** * Properties *)

Import FileSelector.

(** ** The result monad *)

Lemma bind_Ok {A B} (r : result A) (k : A -> result B) b :
  r ≫= k = Ok b -> exists a, r = Ok a /\ k a = Ok b.
Proof. destruct r as [a|e]; simpl; [eauto | discriminate]. Qed.

Lemma of_option_Ok {A} e (o : option A) a : of_option e o = Ok a <-> o = Some a.
Proof. destruct o; simpl; split; congruence. Qed.

(** ** The dimension table *)

Lemma elem_of_all_sizes (ds : Dataset) d n :
  (d, n) ∈ all_sizes ds <->
  exists x v, ds !! x = Some v /\ (d, n) ∈ sizes v.
Proof.
  unfold all_sizes. rewrite list_elem_of_join. split.
  - intros (l & Hin & Hl).
    apply list_elem_of_fmap in Hl as ([x v] & -> & Hxv).
    apply elem_of_map_to_list in Hxv. eauto.
  - intros (x & v & Hx & Hd). exists (sizes v). split; [done|].
    apply list_elem_of_fmap. exists (x, v). split; [done|].
    by apply elem_of_map_to_list.
Qed.

Lemma ds_dims_Some (ds : Dataset) d n :
  ds_dims ds !! d = Some n ->
  exists x v, ds !! x = Some v /\ (d, n) ∈ sizes v.
Proof.
  unfold ds_dims. intros H.
  by apply elem_of_list_to_map_2, elem_of_all_sizes in H.
Qed.

Lemma ds_dims_lookup (ds : Dataset) x v d n :
  ds !! x = Some v -> (d, n) ∈ sizes v -> dim_agrees ds d n ->
  ds_dims ds !! d = Some n.
Proof.
  intros Hx Hd Hag. unfold ds_dims.
  apply elem_of_list_to_map_1'.
  - intros m (y & w & Hy & Hm)%elem_of_all_sizes. symmetry. eapply Hag; eauto.
  - apply elem_of_all_sizes. eauto.
Qed.

Lemma consistent_dim_agrees (ds : Dataset) d n :
  consistent ds -> dim_size ds d = Ok n -> dim_agrees ds d n.
Proof.
  unfold dim_size, consistent. intros Hc Hn. apply of_option_Ok in Hn.
  apply elem_of_list_to_map_2 in Hn.
  intros x v m Hx Hm.
  assert (Hin : (d, m) ∈ all_sizes ds) by (apply elem_of_all_sizes; eauto).
  rewrite Forall_forall in Hc. specialize (Hc _ Hin).
  rewrite Forall_forall in Hc. by apply (Hc _ Hn).
Qed.

Lemma sizes_full_nan d n e m :
  (e, m) ∈ sizes (full_nan d n) -> e = d /\ m = n.
Proof.
  unfold full_nan; simpl. intros H.
  apply list_elem_of_singleton in H. by inversion H.
Qed.

Lemma dim_agrees_insert (ds : Dataset) x v d n :
  dim_agrees ds d n -> (forall m, (d, m) ∈ sizes v -> m = n) ->
  dim_agrees (<[x := v]> ds) d n.
Proof.
  intros Hag Hv y w m Hy Hm.
  destruct (decide (x = y)) as [->|Hne].
  - rewrite lookup_insert_eq in Hy. inversion Hy; subst. by apply Hv.
  - rewrite lookup_insert_ne in Hy by done. eapply Hag; eauto.
Qed.

Lemma dim_size_insert_full (ds : Dataset) x d n :
  dim_agrees ds d n ->
  dim_agrees (<[x := full_nan d n]> ds) d n /\
  dim_size (<[x := full_nan d n]> ds) d = Ok n.
Proof.
  intros Hag.
  assert (Hag' : dim_agrees (<[x := full_nan d n]> ds) d n).
  { apply dim_agrees_insert; [done|].
    intros m Hm. by apply sizes_full_nan in Hm as [_ ->]. }
  split; [done|]. unfold dim_size. apply of_option_Ok.
  eapply ds_dims_lookup; [apply lookup_insert_eq | | done].
  unfold full_nan; simpl. apply list_elem_of_singleton. done.
Qed.

(** ** The nearest-index search *)

Lemma argmin_from_Some xs : forall i best k m,
  argmin_from i best xs = Some (k, m) ->
  (best = Some (k, m) /\ forall j x, xs !! j = Some (Num x) -> (m <= x)%Z)
  \/ (exists j, k = i + j /\ xs !! j = Some (Num m)
        /\ (forall b, best = Some b -> (m < b.2)%Z)
        /\ forall j' x, xs !! j' = Some (Num x) ->
             (m <= x)%Z /\ (j' < j -> (m < x)%Z)).
Proof.
  induction xs as [|c rest IH]; intros i best k m H; simpl in H.
  - left. split; [done|]. intros j x Hj. by rewrite lookup_nil in Hj.
  - destruct c as [|x].
    + apply IH in H as [[Hb Hall] | (j & -> & Hj & Hb & Hall)].
      * left. split; [done|]. intros [|j] x Hj; [done|]. by apply (Hall j).
      * right. exists (S j). split; [lia|]. split; [done|]. split; [done|].
        intros [|j'] x Hx; [done|]. destruct (Hall j' x Hx). split; [done|]. lia.
    + assert (Hnew : argmin_from (S i) (Some (i, x)) rest = Some (k, m) ->
                (forall b, best = Some b -> (x < b.2)%Z) ->
                exists j, k = i + j /\ (Num x :: rest) !! j = Some (Num m)
                  /\ (forall b, best = Some b -> (m < b.2)%Z)
                  /\ forall j' y, (Num x :: rest) !! j' = Some (Num y) ->
                       (m <= y)%Z /\ (j' < j -> (m < y)%Z)).
      { intros H' Hlt.
        apply IH in H' as [[Hb Hall] | (j & -> & Hj & Hb & Hall)].
        - inversion Hb; subst. exists 0. split; [lia|]. split; [done|].
          split; [done|]. intros [|j'] y Hy.
          + inversion Hy; subst. lia.
          + specialize (Hall j' y Hy). lia.
        - specialize (Hb _ eq_refl). simpl in Hb.
          exists (S j). split; [lia|]. split; [done|]. split.
          + intros b Hbest. specialize (Hlt b Hbest). lia.
          + intros [|j'] y Hy.
            * inversion Hy; subst. lia.
            * destruct (Hall j' y Hy). split; [done|]. lia. }
      destruct best as [[i0 b]|].
      * destruct (Z.ltb_spec x b) as [Hxb|Hxb].
        -- right. apply Hnew; [done|]. intros b' Hb'. inversion Hb'; subst. done.
        -- apply IH in H as [[Hb Hall] | (j & -> & Hj & Hb & Hall)].
           ++ inversion Hb; subst. left. split; [done|].
              intros [|j] y Hy; [inversion Hy; subst; lia|]. by apply (Hall j).
           ++ specialize (Hb _ eq_refl). simpl in Hb.
              right. exists (S j). split; [lia|]. split; [done|]. split.
              ** intros b' Hb'. inversion Hb'; subst. done.
              ** intros [|j'] y Hy.
                 --- inversion Hy; subst. lia.
                 --- destruct (Hall j' y Hy). split; [done|]. lia.
      * right. apply Hnew; [done|]. intros b' Hb'. discriminate.
Qed.


(** [argmin] returns the first position of the smallest non-missing entry. *)
Lemma argmin_Ok xs k :
  argmin xs = Ok k ->
  exists m, xs !! k = Some (Num m) /\
    forall j x, xs !! j = Some (Num x) -> (m <= x)%Z /\ (j < k -> (m < x)%Z).
Proof.
  unfold argmin. intros H. apply of_option_Ok in H.
  destruct (argmin_from 0 None xs) as [[k' m]|] eqn:E; [|done].
  simpl in H. inversion H; subst.
  apply argmin_from_Some in E as [[Hb _] | (j & -> & Hj & _ & Hall)]; [done|].
  exists m. simpl. split; [done|]. exact Hall.
Qed.


Lemma time_diff_lookup ctd g j d :
  time_diff ctd g !! j = Some (Num d) <->
  exists t tg, ctd !! j = Some (Num t) /\ g = Num tg /\ d = Z.abs (t - tg).
Proof.
  unfold time_diff. rewrite list_lookup_fmap.
  destruct (ctd !! j) as [[|t]|]; simpl; split.
  - done.
  - intros (t & tg & ? & _); done.
  - destruct g as [|tg]; simpl; [done|]. intros H; inversion H; subst. eauto.
  - intros (t' & tg & Ht & -> & ->). inversion Ht; subst. done.
  - done.
  - intros (t & tg & ? & _); done.
Qed.

Lemma length_time_diff ctd g : length (time_diff ctd g) = length ctd.
Proof. unfold time_diff. by rewrite length_fmap. Qed.

(** What [find_nearest_index] returns, in terms of the time stamps. *)
Lemma find_nearest_index_Ok (ds : Dataset) g i :
  find_nearest_index ds g = Ok i ->
  exists ctd ti tg,
    ds !! "ctd_time" = Some ctd /\ g = Num tg /\
    values ctd !! i = Some (Num ti) /\
    forall j tj, values ctd !! j = Some (Num tj) ->
      (Z.abs (ti - tg) <= Z.abs (tj - tg))%Z /\
      (j < i -> (Z.abs (ti - tg) < Z.abs (tj - tg))%Z).
Proof.
  unfold find_nearest_index, getitem. intros H.
  apply bind_Ok in H as (ctd & Hctd & H). apply of_option_Ok in Hctd.
  apply argmin_Ok in H as (m & Hm & Hall).
  apply time_diff_lookup in Hm as (ti & tg & Hi & -> & ->).
  exists ctd, ti, tg. repeat split; try done.
  - apply (Hall j (Z.abs (tj - tg))). apply time_diff_lookup. eauto.
  - apply (Hall j (Z.abs (tj - tg))). apply time_diff_lookup. eauto.
Qed.


Lemma find_nearest_index_ext (ds ds' : Dataset) g :
  ds' !! "ctd_time" = ds !! "ctd_time" ->
  find_nearest_index ds' g = find_nearest_index ds g.
Proof. intros H. unfold find_nearest_index, getitem. by rewrite H. Qed.

(** ** The alignment loop *)

Lemma length_writes ws : forall arr, length (writes arr ws) = length arr.
Proof.
  induction ws as [|w ws IH]; intros arr; simpl; [done|].
  unfold writes in *. simpl. by rewrite IH, length_insert.
Qed.





Lemma setitem_at_inv (ds ds' : Dataset) name i v :
  setitem_at ds name i v = Ok ds' ->
  exists arr, ds !! name = Some arr /\ i < length (values arr) /\
    ds' = <[name := with_values arr (<[i := v]> (values arr))]> ds.
Proof.
  unfold setitem_at, getitem. intros H.
  apply bind_Ok in H as (arr & Harr & H). apply of_option_Ok in Harr.
  destruct (decide (i < length (values arr))); [|done].
  inversion H; subst. eauto.
Qed.


Lemma fill_gps_Ok fixes : forall (ds ds' : Dataset) la lo ti,
  ds !! "gps_lat" = Some la -> ds !! "gps_lon" = Some lo ->
  ds !! "gps_time" = Some ti ->
  fill_gps fixes ds = Ok ds' ->
  exists idxs,
    Forall2 (fun fx i => find_nearest_index ds (fix_time fx) = Ok i) fixes idxs /\
    Forall (fun i => i < length (values la) /\ i < length (values lo)
                     /\ i < length (values ti)) idxs /\
    ds' !! "gps_lat" =
      Some (with_values la (writes (values la) (zip idxs (fix_lat <$> fixes)))) /\
    ds' !! "gps_lon" =
      Some (with_values lo (writes (values lo) (zip idxs (fix_lon <$> fixes)))) /\
    ds' !! "gps_time" =
      Some (with_values ti (writes (values ti) (zip idxs (fix_time <$> fixes)))) /\
    forall x, ~ aligned x -> ds' !! x = ds !! x.
Proof.
  induction fixes as [|[[t a] o] rest IH]; intros ds ds' la lo ti Hla Hlo Hti H.
  - simpl in H. inversion H; subst. exists []. simpl.
    destruct la, lo, ti. repeat split; try done; constructor.
  - simpl in H.
    apply bind_Ok in H as (i & Hi & H).
    apply bind_Ok in H as (ds1 & H1 & H).
    apply bind_Ok in H as (ds2 & H2 & H).
    apply bind_Ok in H as (ds3 & H3 & H).
    apply setitem_at_inv in H1 as (la' & Hla' & Hila & ->).
    rewrite Hla in Hla'. inversion Hla'; subst la'.
    apply setitem_at_inv in H2 as (lo' & Hlo' & Hilo & ->).
    rewrite lookup_insert_ne, Hlo in Hlo' by done. inversion Hlo'; subst lo'.
    apply setitem_at_inv in H3 as (ti' & Hti' & Hiti & ->).
    rewrite !lookup_insert_ne, Hti in Hti' by done. inversion Hti'; subst ti'.
    eapply IH in H as (idxs & Hidx & Hbound & Rla & Rlo & Rti & Rframe).
    2: { rewrite !lookup_insert_ne by done. apply lookup_insert_eq. }
    2: { rewrite lookup_insert_ne by done. apply lookup_insert_eq. }
    2: { apply lookup_insert_eq. }
    exists (i :: idxs). split; [|split; [|split; [|split; [|split]]]].
    + constructor; [done|].
      eapply Forall2_impl; [exact Hidx|]. intros fx j Hj. simpl in Hj.
      rewrite <- Hj. symmetry. apply find_nearest_index_ext.
      by rewrite !lookup_insert_ne.
    + constructor; [done|].
      eapply Forall_impl; [exact Hbound|]. simpl. intros j.
      by rewrite !length_insert.
    + exact Rla.
    + exact Rlo.
    + exact Rti.
    + intros x Hx. rewrite Rframe by done.
      rewrite !lookup_insert_ne; [done|..]; intros <-; apply Hx; unfold aligned; auto.
Qed.


Lemma add_gps_frames (ds : Dataset) n :
  consistent ds -> dim_size ds sg_data_point = Ok n ->
  add_gps_coordinates ds =
    (log_gps_time ← getattr ds "log_gps_time";
     log_gps_lat ← getattr ds "log_gps_lat";
     log_gps_lon ← getattr ds "log_gps_lon";
     fill_gps (fixes_of log_gps_time log_gps_lat log_gps_lon)
       (<["gps_time" := full_nan sg_data_point n]>
         (<["gps_lon" := full_nan sg_data_point n]>
           (<["gps_lat" := full_nan sg_data_point n]> ds)))).
Proof.
  intros Hc Hn. pose proof (consistent_dim_agrees _ _ _ Hc Hn) as Hag.
  unfold add_gps_coordinates. rewrite Hn. simpl.
  destruct (dim_size_insert_full ds "gps_lat" _ _ Hag) as [Hag1 ->]. simpl.
  destruct (dim_size_insert_full _ "gps_lon" _ _ Hag1) as [Hag2 ->]. simpl.
  unfold getattr. by rewrite !lookup_insert_ne.
Qed.

Lemma add_gps_coordinates_Ok (ds ds' : Dataset) n :
  consistent ds -> dim_size ds sg_data_point = Ok n ->
  add_gps_coordinates ds = Ok ds' ->
  exists lt la lo idxs,
    ds !! "log_gps_time" = Some lt /\ ds !! "log_gps_lat" = Some la /\
    ds !! "log_gps_lon" = Some lo /\
    Forall2 (fun fx i => find_nearest_index ds (fix_time fx) = Ok i)
      (fixes_of lt la lo) idxs /\
    Forall (fun i => i < n) idxs /\
    ds' !! "gps_lat" =
      Some (aligned_array n (zip idxs (fix_lat <$> fixes_of lt la lo))) /\
    ds' !! "gps_lon" =
      Some (aligned_array n (zip idxs (fix_lon <$> fixes_of lt la lo))) /\
    ds' !! "gps_time" =
      Some (aligned_array n (zip idxs (fix_time <$> fixes_of lt la lo))) /\
    forall x, ~ aligned x -> ds' !! x = ds !! x.
Proof.
  intros Hc Hn H. rewrite (add_gps_frames ds n Hc Hn) in H.
  unfold getattr in H.
  apply bind_Ok in H as (lt & Hlt & H). apply of_option_Ok in Hlt.
  apply bind_Ok in H as (la & Hla & H). apply of_option_Ok in Hla.
  apply bind_Ok in H as (lo & Hlo & H). apply of_option_Ok in Hlo.
  eapply fill_gps_Ok in H as (idxs & Hidx & Hbound & Rla & Rlo & Rti & Rframe).
  2: { rewrite !lookup_insert_ne by done. apply lookup_insert_eq. }
  2: { rewrite lookup_insert_ne by done. apply lookup_insert_eq. }
  2: { apply lookup_insert_eq. }
  exists lt, la, lo, idxs. repeat split; try done.
  - eapply Forall2_impl; [exact Hidx|]. intros fx i Hi. simpl in Hi.
    rewrite <- Hi. symmetry. apply find_nearest_index_ext.
    by rewrite !lookup_insert_ne.
  - eapply Forall_impl; [exact Hbound|]. simpl. intros i (Hi & _).
    by rewrite length_replicate in Hi.
  - intros x Hx. rewrite Rframe by done.
    rewrite !lookup_insert_ne; [done|..]; intros <-; apply Hx; unfold aligned; auto.
Qed.


(** ** Counting the non-missing entries *)



Section AlignedCounts.

Context (n : nat) (idxs : list nat) (vs : list cell).
Hypothesis same_length : length idxs = length vs.
Hypothesis in_range : Forall (fun i => i < n) idxs.







End AlignedCounts.



(** ** GPS alignment: main results *)



(** C9. On a dive without fixes [add_gps_coordinates] returns normally; the
    three aligned variables are on the measurement axis, have its length
    and hold only missing values, and no other variable changes. *)
Theorem C9_no_fix_all_missing (ds : Dataset) n lt la lo :
  consistent ds -> dim_size ds sg_data_point = Ok n ->
  ds !! "log_gps_time" = Some lt -> ds !! "log_gps_lat" = Some la ->
  ds !! "log_gps_lon" = Some lo ->
  fixes_of lt la lo = [] ->
  exists ds',
    add_gps_coordinates ds = Ok ds' /\
    (forall x, aligned x ->
       exists arr, ds' !! x = Some arr /\ dims arr = [sg_data_point] /\
         length (values arr) = n /\ Forall (fun c => c = NaN) (values arr)) /\
    (forall x, ~ aligned x -> ds' !! x = ds !! x).
Proof.
  intros Hc Hn Hlt Hla Hlo Hfix.
  rewrite (add_gps_frames ds n Hc Hn). unfold getattr.
  rewrite Hlt, Hla, Hlo. simpl. rewrite Hfix. simpl.
  eexists. split; [done|]. split.
  - assert (Hfull : forall d, dims (full_nan d n) = [d] /\
        length (values (full_nan d n)) = n /\
        Forall (fun c => c = NaN) (values (full_nan d n))).
    { intros d. simpl. rewrite length_replicate. repeat split.
      apply Forall_forall. by intros c [-> _]%elem_of_replicate. }
    intros x [-> | [-> | ->]]; eexists; (split; [|apply Hfull]).
    + rewrite !lookup_insert_ne by done. apply lookup_insert_eq.
    + rewrite lookup_insert_ne by done. apply lookup_insert_eq.
    + apply lookup_insert_eq.
  - intros x Hx.
    rewrite !lookup_insert_ne; [done|..]; intros <-; apply Hx; unfold aligned; auto.
Qed.

Lemma C9_witness :
  exists ds',
    add_gps_coordinates dive_no_fix = Ok ds' /\
    (forall x, aligned x ->
       exists arr, ds' !! x = Some arr /\ dims arr = [sg_data_point] /\
         length (values arr) = 2 /\ Forall (fun c => c = NaN) (values arr)) /\
    (forall x, ~ aligned x -> ds' !! x = dive_no_fix !! x).
Proof.
  apply (C9_no_fix_all_missing dive_no_fix 2
           (array1 "gps_info" []) (array1 "gps_info" []) (array1 "gps_info" [])).
  - by_evaluation.
  - vm_compute. reflexivity.
  - vm_compute. reflexivity.
  - vm_compute. reflexivity.
  - vm_compute. reflexivity.
  - reflexivity.
Defined.



(** The collision of [dive_collision], evaluated: both fixes map to
    position 0, which ends up with the values of the second fix. *)
Example dive_collision_run :
  find_nearest_index dive_collision (Num 110) = Ok 0 /\
  find_nearest_index dive_collision (Num 120) = Ok 0 /\
  values <$> returned (add_gps_coordinates dive_collision) !! "gps_lat"
    = Some [Num 11; NaN; NaN] /\
  values <$> returned (add_gps_coordinates dive_collision) !! "gps_lon"
    = Some [Num 21; NaN; NaN] /\
  values <$> returned (add_gps_coordinates dive_collision) !! "gps_time"
    = Some [Num 120; NaN; NaN].
Proof. vm_compute. repeat split. Qed.





(** ** Dropping dimensions *)

Lemma dims_in_ds_dims (ds : Dataset) x v d :
  ds !! x = Some v -> d ∈ dims v -> d ∈ dom (ds_dims ds).
Proof.
  intros Hx Hd. unfold dims in Hd.
  apply list_elem_of_fmap in Hd as ([d' n] & -> & Hdn). simpl.
  apply elem_of_dom. unfold ds_dims.
  destruct (list_to_map (all_sizes ds) !! d') as [m|] eqn:E; [done|].
  exfalso. apply not_elem_of_list_to_map in E. apply E.
  apply list_elem_of_fmap. exists (d', n). split; [done|].
  apply elem_of_all_sizes. eauto.
Qed.

(** A variable survives [drop_dims] of the other dimensions exactly when
    the measurement axis is the only dimension it can have. *)
Lemma drop_other_dims_lookup (ds : Dataset) x v :
  ds !! x = Some v ->
  drop_dims ds (dims_other_than ds sg_data_point) !! x =
    if decide (Forall (fun d => d = sg_data_point) (dims v)) then Some v else None.
Proof.
  intros Hx. unfold drop_dims. destruct (decide _) as [Hall|Hnot].
  - apply map_lookup_filter_Some. split; [done|]. simpl.
    apply set_eq. intros d. split; [|by intros ?%elem_of_empty].
    rewrite elem_of_intersection, elem_of_list_to_set.
    unfold dims_other_than. rewrite elem_of_difference, elem_of_singleton.
    intros [Hd [_ Hne]]. rewrite Forall_forall in Hall. by apply Hall in Hd.
  - apply map_lookup_filter_None. right. intros v' Hv'. simpl.
    rewrite Hx in Hv'. inversion Hv'; subst v'. intros Hempty.
    apply Hnot, Forall_forall. intros d Hd.
    destruct (decide (d = sg_data_point)) as [|Hne]; [done|]. exfalso.
    assert (Hin : d ∈ ((list_to_set (dims v) : gset string)
                         ∩ dims_other_than ds sg_data_point)).
    { rewrite elem_of_intersection, elem_of_list_to_set.
      unfold dims_other_than. rewrite elem_of_difference, elem_of_singleton.
      split; [done|]. split; [|done]. by eapply dims_in_ds_dims. }
    rewrite Hempty in Hin. by apply elem_of_empty in Hin.
Qed.

(** C7, as amended.  [drop_dims] of every dimension but the measurement
    axis drops exactly the variables that have some other dimension, also
    those that have the measurement axis as well; the variables whose only
    dimension is the measurement axis, and the scalars, which have no
    dimension, are retained unchanged; nothing is added. *)
Theorem C7_drop_dims_keeps_measurement_only (ds : Dataset) x v :
  ds !! x = Some v ->
  let kept := drop_dims ds (dims_other_than ds sg_data_point) in
  ((forall d, d ∈ dims v -> d = sg_data_point) -> kept !! x = Some v) /\
  ((exists d, d ∈ dims v /\ d <> sg_data_point) -> kept !! x = None) /\
  (forall y w, kept !! y = Some w -> ds !! y = Some w).
Proof.
  intros Hx kept. unfold kept. rewrite (drop_other_dims_lookup ds x v Hx).
  split; [|split].
  - intros Hall. rewrite decide_True; [done|]. by apply Forall_forall.
  - intros (d & Hd & Hne). rewrite decide_False; [done|].
    intros Hall. rewrite Forall_forall in Hall. by apply Hall in Hd.
  - intros y w Hy. unfold drop_dims in Hy.
    by apply map_lookup_filter_Some in Hy as [Hy _].
Qed.

Lemma C7_witness :
  let kept := drop_dims dive_mixed (dims_other_than dive_mixed sg_data_point) in
  ((forall d, d ∈ dims (array1 sg_data_point (nums [100; 200]%Z)) ->
      d = sg_data_point) ->
   kept !! "ctd_time" = Some (array1 sg_data_point (nums [100; 200]%Z))) /\
  ((exists d, d ∈ dims (array1 sg_data_point (nums [100; 200]%Z))
      /\ d <> sg_data_point) -> kept !! "ctd_time" = None) /\
  (forall y w, kept !! y = Some w -> dive_mixed !! y = Some w).
Proof.
  apply (C7_drop_dims_keeps_measurement_only dive_mixed "ctd_time").
  vm_compute. reflexivity.
Defined.

(** The claim C7 as it was stated fails on [dive_mixed] in both directions:
    [spectra] has the measurement axis among its dimensions and is dropped,
    [avg_latitude] does not have it and is retained. *)
Lemma C7_counterexample :
  let kept := drop_dims dive_mixed (dims_other_than dive_mixed sg_data_point) in
  (exists v, dive_mixed !! "spectra" = Some v /\
     sg_data_point ∈ dims v /\ kept !! "spectra" = None) /\
  (exists v, dive_mixed !! "avg_latitude" = Some v /\
     (sg_data_point ∉ dims v) /\ kept !! "avg_latitude" = Some v).
Proof.
  split.
  - eexists. split; [vm_compute; reflexivity|]. split.
    + apply list_elem_of_here.
    + vm_compute. reflexivity.
  - eexists. split; [vm_compute; reflexivity|]. split.
    + apply not_elem_of_nil.
    + vm_compute. reflexivity.
Qed.

(** ** Trajectory repair *)




(** ** File selection *)

Lemma in_profile_range_spec start_profile end_profile p :
  in_profile_range start_profile end_profile p = true <->
  (forall lo, start_profile = Some lo -> (lo <= p)%Z) /\
  (forall hi, end_profile = Some hi -> (p <= hi)%Z).
Proof.
  destruct start_profile as [s|], end_profile as [e|]; simpl.
  - rewrite andb_true_iff, !Z.leb_le. split.
    + intros [? ?]. split; intros ? [= <-]; done.
    + intros [H1 H2]. split; [by apply H1 | by apply H2].
  - rewrite Z.geb_le. split.
    + intros ?. split; [intros ? [= <-]; done | done].
    + intros [H1 _]. by apply H1.
  - rewrite Z.leb_le. split.
    + intros ?. split; [done | intros ? [= <-]; done].
    + intros [_ H2]. by apply H2.
  - split; [|done]. intros _. split; done.
Qed.

(** When the selection returns, it is the listing filtered, in order, by
    extension and profile range. *)
Lemma select_files_Ok int start_profile end_profile file_list :
  forall selected,
  select_files int start_profile end_profile file_list = Ok selected ->
  Forall (fun f => is_Some (to_option (profile_number int f)))
    (candidates file_list) /\
  selected =
    List.filter (fun f => match profile_number int f with
                          | Ok p => in_profile_range start_profile end_profile p
                          | Raise _ => false
                          end) (candidates file_list).
Proof.
  induction file_list as [|file rest IH]; intros selected H; simpl in H.
  - inversion H. split; [constructor | done].
  - unfold candidates. simpl. destruct (endswith file ".nc") eqn:E.
    + apply bind_Ok in H as (p & Hp & H). apply bind_Ok in H as (sel & Hsel & H).
      destruct (IH _ Hsel) as [Hall ->]. inversion H; subst. simpl. rewrite Hp.
      split; [constructor; [by rewrite Hp | done]|].
      by destruct (in_profile_range _ _ p).
    + by apply IH.
Qed.

Lemma select_files_total int start_profile end_profile file_list :
  Forall (fun f => exists p, profile_number int f = Ok p) (candidates file_list) ->
  exists selected, select_files int start_profile end_profile file_list = Ok selected.
Proof.
  induction file_list as [|file rest IH]; intros Hall; simpl; [eauto|].
  unfold candidates in Hall. simpl in Hall.
  destruct (endswith file ".nc").
  - inversion Hall as [|? ? [p Hp] Hrest]; subst.
    destruct (IH Hrest) as [sel Hsel]. rewrite Hp, Hsel. simpl. eauto.
  - by apply IH.
Qed.

(** C6. When the selection returns, a candidate file (a listed name ending
    in [.nc]) whose name parses to profile number [p] is selected exactly
    when [p] is within the bounds that are given, both inclusive; without
    bounds every candidate is selected; and with bounds 10 and 20 over
    profiles 5, 15 and 25 only the file of profile 15 is. *)
Theorem C6_profile_range_filter int start_profile end_profile file_list selected :
  select_files int start_profile end_profile file_list = Ok selected ->
  (forall file p,
     file ∈ file_list -> endswith file ".nc" = true ->
     profile_number int file = Ok p ->
     (file ∈ selected <->
      (forall lo, start_profile = Some lo -> (lo <= p)%Z) /\
      (forall hi, end_profile = Some hi -> (p <= hi)%Z))) /\
  (forall file, file ∈ selected -> file ∈ candidates file_list) /\
  (start_profile = None -> end_profile = None ->
   selected = candidates file_list) /\
  select_files py_int (Some 10%Z) (Some 20%Z) listing_5_15_25
    = Ok ["p0150015_20050301.nc"].
Proof.
  intros H. apply select_files_Ok in H as [Hparse ->].
  split; [|split; [|split]].
  - intros file p Hin Hext Hp.
    rewrite <- in_profile_range_spec, list_elem_of_In, filter_In, Hp.
    unfold candidates. rewrite filter_In, <- list_elem_of_In. tauto.
  - intros file. rewrite !list_elem_of_In, filter_In. tauto.
  - intros -> ->. simpl.
    assert (Hall : Forall (fun f => is_Some (to_option (profile_number int f)))
                     (candidates file_list) ->
            List.filter (fun f => match profile_number int f with
                                  | Ok _ => true
                                  | Raise _ => false
                                  end) (candidates file_list)
            = candidates file_list).
    { induction (candidates file_list) as [|f l IH]; [done|].
      intros Hf. inversion Hf as [|? ? [p Hp] Hl]; subst. simpl.
      destruct (profile_number int f); [|done]. by rewrite IH. }
    by apply Hall.
  - vm_compute. reflexivity.
Qed.

Lemma C6_witness :
  (forall file p,
     file ∈ listing_5_15_25 -> endswith file ".nc" = true ->
     profile_number py_int file = Ok p ->
     (file ∈ ["p0150015_20050301.nc"] <->
      (forall lo, Some 10%Z = Some lo -> (lo <= p)%Z) /\
      (forall hi, Some 20%Z = Some hi -> (p <= hi)%Z))) /\
  (forall file, file ∈ ["p0150015_20050301.nc"] ->
     file ∈ candidates listing_5_15_25) /\
  (Some 10%Z = None -> Some 20%Z = None ->
   ["p0150015_20050301.nc"] = candidates listing_5_15_25) /\
  select_files py_int (Some 10%Z) (Some 20%Z) listing_5_15_25
    = Ok ["p0150015_20050301.nc"].
Proof.
  apply (C6_profile_range_filter py_int (Some 10%Z) (Some 20%Z) listing_5_15_25).
  vm_compute. reflexivity.
Defined.

(** ** Unit conversions *)

(** C10, the table as the code builds it.  The display of
    [unit_conversion] names the key ["dbar"] twice, so its entry for
    pascals is replaced by the one for kilopascals: ["Pa"] converts to
    ["dbar"] with factor 1/10000, while ["dbar"] converts to ["kPa"] with
    factor 10.  The entries of every key other than ["Pa"] are mutually
    inverse; that of ["Pa"] is not. *)
Theorem C10_pa_dbar_not_inverse :
  unit_conversion !! "Pa" = Some {| units_name := "dbar"; factor := 1 # 10000 |} /\
  unit_conversion !! "dbar" = Some {| units_name := "kPa"; factor := 10 |} /\
  ~ mutually_inverse unit_conversion "Pa" /\
  (forall u, u <> "Pa" -> mutually_inverse unit_conversion u).
Proof.
  split; [vm_compute; reflexivity|]. split; [vm_compute; reflexivity|]. split.
  - intros H.
    destruct (H {| units_name := "dbar"; factor := 1 # 10000 |}
                ltac:(vm_compute; reflexivity)
                {| units_name := "kPa"; factor := 10 |}
                ltac:(vm_compute; reflexivity)) as [Hname _].
    simpl in Hname. discriminate.
  - intros u Hu c Hc c' Hc'.
    assert (Hkeys : u ∈ ["cm/s"; "cm s-1"; "m/s"; "m s-1"; "S/m"; "S m-1";
                         "mS/cm"; "mS cm-1"; "dbar"; "Pa"]).
    { apply list_elem_of_In.
      assert (Hdom : u ∈ dom unit_conversion) by (apply elem_of_dom; eauto).
      replace (dom unit_conversion) with
        (list_to_set ["cm/s"; "cm s-1"; "m/s"; "m s-1"; "S/m"; "S m-1";
                      "mS/cm"; "mS cm-1"; "dbar"; "Pa"] : gset string) in Hdom
        by (apply (bool_decide_unpack _); vm_compute; exact I).
      apply elem_of_list_to_set in Hdom. by apply list_elem_of_In. }
    repeat (apply elem_of_cons in Hkeys as [-> | Hkeys]);
      try (by apply elem_of_nil in Hkeys);
      try done;
      vm_compute in Hc; inversion Hc; subst c;
      vm_compute in Hc'; inversion Hc'; subst c'; simpl;
      (split; [reflexivity | vm_compute; reflexivity]).
Qed.

(** ** The stable sort *)

Lemma sort_le_total a b : sort_le a b = true \/ sort_le b a = true.
Proof. destruct a as [|x], b as [|y]; simpl; auto. rewrite !Z.leb_le. lia. Qed.

Lemma sort_le_trans a b c :
  sort_le a b = true -> sort_le b c = true -> sort_le a c = true.
Proof.
  destruct a as [|x], b as [|y], c as [|z]; simpl; try done.
  rewrite !Z.leb_le. lia.
Qed.

Lemma sort_le_antisym a b : sort_le a b = true -> sort_le b a = true -> a = b.
Proof.
  destruct a as [|x], b as [|y]; simpl; try done.
  rewrite !Z.leb_le. intros. f_equal. lia.
Qed.

Lemma sort_le_refl a : sort_le a a = true.
Proof. destruct a; simpl; [done|]. apply Z.leb_refl. Qed.

Lemma insert_key_Permutation x l : insert_key x l ≡ₚ x :: l.
Proof.
  induction l as [|y l IH]; simpl; [done|].
  destruct (sort_le x.1 y.1); [done|]. rewrite IH. apply Permutation_swap.
Qed.

Lemma insert_key_sorted x l :
  StronglySorted before l -> Forall (fun y => x.2 < y.2) l ->
  StronglySorted before (insert_key x l).
Proof.
  induction l as [|y l IH]; intros Hs Hx; simpl.
  - repeat constructor.
  - apply StronglySorted_inv in Hs as [Hs Hy].
    inversion Hx as [|? ? Hxy Hxl]; subst.
    destruct (sort_le x.1 y.1) eqn:E.
    + constructor; [by constructor|]. constructor; [by split|].
      rewrite Forall_forall in Hy, Hxl. apply Forall_forall. intros z Hz.
      destruct (Hy z Hz) as [Hyz _]. split; [by eapply sort_le_trans|].
      intros _. by apply Hxl.
    + constructor; [by apply IH|].
      rewrite (insert_key_Permutation x l). constructor; [|done].
      split; [|by rewrite E].
      by destruct (sort_le_total x.1 y.1) as [Hxy'|Hyx]; [rewrite E in Hxy'|].
Qed.

Lemma sort_pairs_Permutation l : sort_pairs l ≡ₚ l.
Proof.
  induction l as [|x l IH]; simpl; [done|].
  by rewrite insert_key_Permutation, IH.
Qed.

Lemma sort_pairs_sorted l :
  StronglySorted (fun a b => a.2 < b.2) l -> StronglySorted before (sort_pairs l).
Proof.
  induction l as [|x l IH]; intros Hs; simpl; [constructor|].
  apply StronglySorted_inv in Hs as [Hs Hx].
  apply insert_key_sorted; [by apply IH|].
  by rewrite sort_pairs_Permutation.
Qed.

Lemma StronglySorted_lookup {A} (R : A -> A -> Prop) (l : list A) i j x y :
  StronglySorted R l -> i < j -> l !! i = Some x -> l !! j = Some y -> R x y.
Proof.
  intros Hs. revert i j. induction Hs as [|a l Hs IH Ha]; intros i j Hij Hi Hj.
  - by rewrite lookup_nil in Hi.
  - destruct j as [|j]; [lia|]. simpl in Hj. destruct i as [|i].
    + simpl in Hi. inversion Hi; subst. rewrite Forall_forall in Ha.
      apply Ha. by eapply list_elem_of_lookup_2.
    + simpl in Hi. apply (IH i j); [lia|done..].
Qed.

Lemma indexed_sorted (keys : list cell) : forall start,
  StronglySorted (fun a b : cell * nat => a.2 < b.2)
    (zip keys (seq start (length keys))).
Proof.
  induction keys as [|k keys IH]; intros start; simpl; constructor; [apply IH|].
  apply Forall_forall. intros [k' p] Hp. simpl.
  apply elem_of_zip_r, list_elem_of_In, in_seq in Hp. lia.
Qed.

Lemma indexed_lookup (keys : list cell) k p :
  (k, p) ∈ zip keys (seq 0 (length keys)) -> keys !! p = Some k.
Proof.
  intros Hin. apply list_elem_of_lookup_1 in Hin as [i Hi].
  apply lookup_zip_Some in Hi as [Hk Hp].
  apply lookup_seq in Hp as [-> _]. done.
Qed.

(** [lexsort] is a stable ascending sort: it returns every position once,
    keys never decrease along it, and positions with the same key keep
    their order. *)
Lemma lexsort_spec (keys : list cell) :
  lexsort keys ≡ₚ seq 0 (length keys) /\
  take_at (lexsort keys) keys = (sort_pairs (zip keys (seq 0 (length keys)))).*1 /\
  forall i j p q,
    i < j -> lexsort keys !! i = Some p -> lexsort keys !! j = Some q ->
    exists a b, keys !! p = Some a /\ keys !! q = Some b /\
      sort_le a b = true /\ (a = b -> p < q).
Proof.
  unfold lexsort.
  pose proof (sort_pairs_Permutation (zip keys (seq 0 (length keys)))) as Hperm.
  pose proof (sort_pairs_sorted _ (indexed_sorted keys 0)) as Hsorted.
  remember (sort_pairs (zip keys (seq 0 (length keys)))) as sp eqn:Hsp.
  clear Hsp.
  assert (Hkey : Forall (fun x => keys !! x.2 = Some x.1) sp).
  { apply Forall_forall. intros [k p] Hin. rewrite Hperm in Hin.
    by apply indexed_lookup. }
  split; [|split].
  - rewrite Hperm. rewrite snd_zip; [done|]. by rewrite length_seq.
  - unfold take_at. clear Hperm Hsorted.
    induction Hkey as [|x l Hx Hl IH]; [done|]. csimpl. rewrite Hx. simpl.
    f_equal. exact IH.
  - intros i j p q Hij Hi Hj.
    apply list_lookup_fmap_Some in Hi as ([a p'] & Hp & Hi).
    apply list_lookup_fmap_Some in Hj as ([b q'] & Hq & Hj).
    simpl in Hp, Hq. subst p q.
    rewrite Forall_forall in Hkey.
    pose proof (Hkey _ (list_elem_of_lookup_2 _ _ _ Hi)) as Ha.
    pose proof (Hkey _ (list_elem_of_lookup_2 _ _ _ Hj)) as Hb.
    destruct (StronglySorted_lookup _ _ _ _ _ _ Hsorted Hij Hi Hj) as [Hle Hst].
    exists a, b. simpl in *. repeat split; try done.
    intros ->. apply Hst, sort_le_refl.
Qed.

Lemma lexsort_stable_order (keys : list cell) : stable_order keys (lexsort keys).
Proof. destruct (lexsort_spec keys) as (Hperm & _ & Hst). by split. Qed.

Lemma before_asym a b : before a b -> before b a -> False.
Proof. intros [Hab Hlt] [Hba Hlt']. specialize (Hlt Hba). specialize (Hlt' Hab). lia. Qed.

Lemma sorted_unique {A} (R : A -> A -> Prop) (l1 l2 : list A) :
  (forall a b, R a b -> R b a -> False) ->
  StronglySorted R l1 -> StronglySorted R l2 -> l1 ≡ₚ l2 -> l1 = l2.
Proof.
  intros Hasym Hs1. revert l2.
  induction Hs1 as [|a l1 Hs1 IH Ha]; intros l2 Hs2 Hperm.
  - by apply Permutation_nil_l in Hperm.
  - destruct Hs2 as [|b l2 Hs2 Hb].
    + by apply Permutation_nil_r in Hperm.
    + assert (a = b) as ->.
      { assert (Hin1 : a ∈ b :: l2) by (rewrite <- Hperm; apply list_elem_of_here).
        assert (Hin2 : b ∈ a :: l1) by (rewrite Hperm; apply list_elem_of_here).
        apply elem_of_cons in Hin1 as [|Hin1]; [done|].
        apply elem_of_cons in Hin2 as [|Hin2]; [done|]. exfalso.
        rewrite Forall_forall in Ha, Hb.
        eapply Hasym; [by apply Ha | by apply Hb]. }
      f_equal. apply IH; [done|]. by apply Permutation_cons_inv in Hperm.
Qed.

Lemma StronglySorted_of_lookup {A} (R : A -> A -> Prop) (l : list A) :
  (forall i j x y, i < j -> l !! i = Some x -> l !! j = Some y -> R x y) ->
  StronglySorted R l.
Proof.
  induction l as [|a l IH]; intros H; constructor.
  - apply IH. intros i j x y Hij Hi Hj. apply (H (S i) (S j)); [lia|done..].
  - apply Forall_forall. intros y Hy. apply list_elem_of_lookup_1 in Hy as [j Hj].
    apply (H 0 (S j)); [lia|done..].
Qed.

Lemma zip_indexed (keys : list cell) :
  zip keys (seq 0 (length keys)) =
  (fun p => (default NaN (keys !! p), p)) <$> seq 0 (length keys).
Proof.
  apply list_eq. intros i. rewrite list_lookup_fmap.
  destruct (decide (i < length keys)) as [Hi|Hi].
  - rewrite lookup_seq_lt by done. simpl.
    destruct (lookup_lt_is_Some_2 keys i Hi) as [k Hk]. rewrite Hk. simpl.
    apply lookup_zip_Some. split; [done|]. by apply lookup_seq.
  - rewrite lookup_seq_ge by lia. simpl.
    apply lookup_ge_None. rewrite length_zip, length_seq. lia.
Qed.

(** A stable ascending order is unique: whatever stable sort computes it,
    the result is [lexsort]. *)
Lemma lexsort_unique (keys : list cell) order :
  stable_order keys order -> order = lexsort keys.
Proof.
  intros [Hperm Hst]. unfold lexsort.
  set (f := fun p => (default NaN (keys !! p), p)).
  assert (Hpairs : f <$> order = sort_pairs (zip keys (seq 0 (length keys)))).
  { apply (sorted_unique before); [apply before_asym| | |].
    - apply StronglySorted_of_lookup. intros i j x y Hij Hi Hj.
      apply list_lookup_fmap_Some in Hi as (p & -> & Hp).
      apply list_lookup_fmap_Some in Hj as (q & -> & Hq).
      destruct (Hst i j p q Hij Hp Hq) as (a & b & Ha & Hb & Hle & Hlt).
      unfold f, before. simpl. rewrite Ha, Hb. simpl. split; [done|].
      intros Hba. apply Hlt. by apply sort_le_antisym.
    - apply sort_pairs_sorted, indexed_sorted.
    - rewrite sort_pairs_Permutation, zip_indexed. by apply fmap_Permutation. }
  rewrite <- Hpairs, <- list_fmap_compose.
  rewrite <- (list_fmap_id order) at 1. done.
Qed.

(** ** Concatenation *)

Lemma record_concat_len n (ds : Dataset) :
  measurement_record n ds -> concat_len ds sg_data_point = n.
Proof.
  intros [Hall Hctd]. unfold concat_len.
  destruct (ds !! "ctd_time") as [ctd|] eqn:E; [|done].
  simpl in Hctd. inversion Hctd as [Hs].
  rewrite (ds_dims_lookup ds "ctd_time" ctd sg_data_point n); [done..| |].
  - rewrite Hs. apply list_elem_of_here.
  - intros x v m Hx Hm. destruct (Hall x v Hx) as [[Hv _] | [Hv _]];
      rewrite Hv in Hm.
    + apply list_elem_of_singleton in Hm. by inversion Hm.
    + by apply elem_of_nil in Hm.
Qed.

Lemma length_join_replicate {A} n (l : list A) :
  length (mjoin (replicate n l)) = n * length l.
Proof. induction n as [|n IH]; [done|]. simpl. rewrite length_app, IH. lia. Qed.

Lemma record_piece_length n (ds : Dataset) x :
  measurement_record n ds -> length (piece sg_data_point x ds) = n.
Proof.
  intros Hrec. unfold piece. rewrite (record_concat_len n ds Hrec).
  destruct Hrec as [Hall _].
  destruct (ds !! x) as [v|] eqn:E; [|by rewrite length_replicate].
  unfold expand, dims. destruct (Hall x v E) as [[Hv Hlen] | [Hv Hlen]]; rewrite Hv.
  - rewrite decide_True; [done|]. apply list_elem_of_here.
  - rewrite decide_False by apply not_elem_of_nil.
    rewrite length_join_replicate. lia.
Qed.

Lemma column_length ns (datasets : list Dataset) x :
  Forall2 measurement_record ns datasets ->
  length (column datasets x) = sum_list ns.
Proof.
  unfold column. induction 1 as [|n ds ns dss Hrec _ IH]; [done|].
  csimpl. by rewrite length_app, IH, (record_piece_length n ds x Hrec).
Qed.

Lemma concat_total_length ns (datasets : list Dataset) :
  Forall2 measurement_record ns datasets ->
  sum_list ((fun ds => concat_len ds sg_data_point) <$> datasets) = sum_list ns.
Proof.
  induction 1 as [|n ds ns dss Hrec _ IH]; [done|].
  csimpl. by rewrite IH, (record_concat_len n ds Hrec).
Qed.

Lemma assemble_Ok ns (datasets : list Dataset) :
  datasets <> [] -> Forall2 measurement_record ns datasets ->
  assemble datasets = Ok (assembled datasets (sum_list ns)).
Proof.
  intros Hne Hrec. unfold assemble, concat.
  destruct datasets as [|ds0 dss] eqn:Edss; [done|]. rewrite <- Edss in *.
  rewrite (concat_total_length ns datasets Hrec). simpl.
  assert (is_Some ((⋃ datasets) !! "ctd_time")) as [v0 Hv0].
  { destruct ((⋃ datasets) !! "ctd_time") eqn:E; [done|]. exfalso.
    apply lookup_union_list_None_1 in E. rewrite Edss in E, Hrec.
    inversion E as [|? ? E0 _]; subst.
    inversion Hrec as [|n ? ? ? [_ Hctd] _]; subst.
    rewrite E0 in Hctd. done. }
  unfold sortby, getitem. rewrite map_lookup_imap, Hv0. simpl.
  f_equal. apply map_eq. intros x. unfold assembled.
  rewrite lookup_fmap, !map_lookup_imap.
  destruct ((⋃ datasets) !! x) as [v|]; [|done]. simpl.
  unfold isel, dims. simpl. done.
Qed.

Lemma assembled_lookup (datasets : list Dataset) total x v :
  assembled datasets total !! x = Some v ->
  sizes v = [(sg_data_point, total)] /\
  values v = take_at (lexsort (column datasets "ctd_time")) (column datasets x) /\
  exists ds w, ds ∈ datasets /\ ds !! x = Some w /\ attrs v = attrs w.
Proof.
  unfold assembled. rewrite map_lookup_imap.
  destruct ((⋃ datasets) !! x) as [w|] eqn:E; [|done]. simpl.
  intros [= <-]. simpl. repeat split.
  apply lookup_union_list_Some_1 in E as (ds & Hin & Hw). eauto.
Qed.

Lemma assembled_dom (datasets : list Dataset) total x :
  x ∈ dom (assembled datasets total) <-> exists ds, ds ∈ datasets /\ x ∈ dom ds.
Proof.
  unfold assembled. rewrite elem_of_dom, map_lookup_imap. split.
  - intros [v Hv]. destruct ((⋃ datasets) !! x) as [w|] eqn:E; [|done].
    apply lookup_union_list_Some_1 in E as (ds & Hin & Hw).
    exists ds. split; [done|]. apply elem_of_dom. eauto.
  - intros (ds & Hin & [w Hw]%elem_of_dom).
    destruct ((⋃ datasets) !! x) as [w'|] eqn:E; [done|]. exfalso.
    apply lookup_union_list_None_1 in E. rewrite Forall_forall in E.
    specialize (E ds Hin). congruence.
Qed.

Lemma length_take_at order xs : length (take_at order xs) = length order.
Proof. unfold take_at. by rewrite length_fmap. Qed.

Lemma assembled_var ns (datasets : list Dataset) x v :
  Forall2 measurement_record ns datasets ->
  assembled datasets (sum_list ns) !! x = Some v ->
  dims v = [sg_data_point] /\ length (values v) = sum_list ns /\
  values v = take_at (lexsort (column datasets "ctd_time")) (column datasets x).
Proof.
  intros Hrec Hv. apply assembled_lookup in Hv as (Hs & Hval & _).
  unfold dims. rewrite Hs, Hval. split; [done|]. split; [|done].
  rewrite length_take_at.
  destruct (lexsort_spec (column datasets "ctd_time")) as [Hperm _].
  by rewrite Hperm, length_seq, (column_length ns).
Qed.


(** The times of the assembled dataset never decrease, and samples with
    the same time keep the order they had in the concatenation. *)
Lemma sorted_times (keys : list cell) :
  (forall i a b,
     take_at (lexsort keys) keys !! i = Some a ->
     take_at (lexsort keys) keys !! S i = Some b -> sort_le a b = true) /\
  (forall i j p q,
     i < j -> lexsort keys !! i = Some p -> lexsort keys !! j = Some q ->
     keys !! p = keys !! q -> p < q).
Proof.
  destruct (lexsort_spec keys) as (_ & _ & Hst). split.
  - intros i a b Hi Hj. unfold take_at in Hi, Hj.
    apply list_lookup_fmap_Some in Hi as (p & -> & Hp).
    apply list_lookup_fmap_Some in Hj as (q & -> & Hq).
    destruct (Hst i (S i) p q) as (a & b & -> & -> & Hle & _); [lia|done..].
  - intros i j p q Hij Hp Hq Heq.
    destruct (Hst i j p q Hij Hp Hq) as (a & b & Ha & Hb & _ & Hlt).
    apply Hlt. congruence.
Qed.

(** ** Assembly: main results *)



(** The scenario of the specification, evaluated: five samples, at times
    50, 100, 200, 250, 300. *)
Example scenario_assembled :
  values <$> returned (assemble [recordA; recordB]) !! "ctd_time"
    = Some (nums [50; 100; 200; 250; 300]%Z) /\
  values <$> returned (assemble [recordA; recordB]) !! "gps_lat"
    = Some [Num 30; Num 10; NaN; NaN; NaN].
Proof. vm_compute. split; reflexivity. Qed.




(** Samples with the same time keep their input order: the two samples at
    time 100 stay in the order of the dives they come from. *)
Example equal_times_keep_order :
  lexsort (nums [100; 200; 100; 50]%Z) = [3; 0; 2; 1].
Proof. reflexivity. Qed.

(** ** From an opened file to a dive record *)

Lemma consistent_lookup (ds : Dataset) :
  consistent ds <->
  forall x v y w d n m,
    ds !! x = Some v -> ds !! y = Some w ->
    (d, n) ∈ sizes v -> (d, m) ∈ sizes w -> n = m.
Proof.
  unfold consistent. split.
  - intros Hc x v y w d n m Hx Hy Hn Hm.
    rewrite Forall_forall in Hc.
    assert (Hin : (d, n) ∈ all_sizes ds) by (apply elem_of_all_sizes; eauto).
    specialize (Hc _ Hin). rewrite Forall_forall in Hc.
    apply (Hc (d, m)); [|done]. apply elem_of_all_sizes; eauto.
  - intros H. apply Forall_forall. intros [d n] Hn.
    apply Forall_forall. intros [d' m] Hm. simpl. intros <-.
    apply elem_of_all_sizes in Hn as (x & v & Hx & Hn).
    apply elem_of_all_sizes in Hm as (y & w & Hy & Hm). eauto.
Qed.

Lemma consistent_insert_axis (ds : Dataset) x v n :
  consistent ds -> dim_agrees ds sg_data_point n ->
  sizes v = [(sg_data_point, n)] ->
  consistent (<[x := v]> ds).
Proof.
  rewrite !consistent_lookup. intros Hc Hag Hv y1 w1 y2 w2 d k m H1 H2 Hk Hm.
  assert (Hnew : forall j, (d, j) ∈ sizes v -> d = sg_data_point /\ j = n).
  { intros j Hj. rewrite Hv in Hj. apply list_elem_of_singleton in Hj.
    by inversion Hj. }
  destruct (decide (x = y1)) as [E1|N1], (decide (x = y2)) as [E2|N2].
  - subst y1 y2. rewrite lookup_insert_eq in H1, H2.
    inversion H1; inversion H2; subst w1 w2.
    destruct (Hnew k Hk) as [_ ->]. by destruct (Hnew m Hm) as [_ ->].
  - subst y1. rewrite lookup_insert_eq in H1. inversion H1; subst w1.
    rewrite lookup_insert_ne in H2 by done.
    destruct (Hnew k Hk) as [-> ->]. symmetry. by apply (Hag y2 w2).
  - subst y2. rewrite lookup_insert_eq in H2. inversion H2; subst w2.
    rewrite lookup_insert_ne in H1 by done.
    destruct (Hnew m Hm) as [-> ->]. by apply (Hag y1 w1).
  - rewrite lookup_insert_ne in H1, H2 by done. eauto.
Qed.

Lemma assign_all_length n source l :
  assign_all n source = Ok l -> length l = n.
Proof.
  unfold assign_all. intros H.
  destruct (shape source) as [|k [|? ?]]; [| |done].
  - destruct (values source) as [|v [|? ?]]; simplify_eq.
    apply length_replicate.
  - destruct (decide (length (values source) = n)); simplify_eq; [done|].
    destruct (values source) as [|v [|? ?]]; simplify_eq.
    apply length_replicate.
Qed.

Lemma repeat_trajectory_vars_Ok (ds ds' : Dataset) n :
  dim_size ds sg_data_point = Ok n ->
  repeat_trajectory_vars ds = Ok ds' ->
  exists repaired,
    ds' = <["trajectory" := repaired]> ds /\
    sizes repaired = [(sg_data_point, n)] /\ length (values repaired) = n.
Proof.
  intros Hn H. unfold repeat_trajectory_vars in H.
  apply bind_Ok in H as (traj & _ & H).
  apply bind_Ok in H as (c & _ & H).
  rewrite Hn in H. simpl in H.
  apply bind_Ok in H as (filled & Hfilled & H).
  inversion H; subst. eexists. split; [apply insert_insert_eq|].
  split; [done|]. simpl. by eapply assign_all_length.
Qed.

(** What the per-file part of [load_dataset] hands to [xr.concat]: for an
    opened file whose arrays fill their shapes and whose measurement times
    lie on a measurement axis of [n] samples, a dive record of [n] samples. *)
Lemma process_dive_record (ds ds' : Dataset) n :
  consistent ds -> map_Forall (fun _ v => well_shaped v) ds ->
  sizes <$> ds !! "ctd_time" = Some [(sg_data_point, n)] ->
  process_dive ds = Ok ds' ->
  measurement_record n ds'.
Proof.
  intros Hc Hshape Hctd H.
  destruct (ds !! "ctd_time") as [ctd|] eqn:Ectd; [|done].
  simpl in Hctd. inversion Hctd as [Hsz].
  assert (Hag : dim_agrees ds sg_data_point n).
  { intros x v m Hx Hm. rewrite consistent_lookup in Hc.
    apply (Hc x v "ctd_time" ctd sg_data_point); [done..|].
    rewrite Hsz. apply list_elem_of_here. }
  assert (Hn : dim_size ds sg_data_point = Ok n).
  { apply of_option_Ok. apply (ds_dims_lookup ds "ctd_time" ctd); [done| |done].
    rewrite Hsz. apply list_elem_of_here. }
  unfold process_dive in H.
  apply bind_Ok in H as (ds1 & H1 & H).
  apply bind_Ok in H as (ds2 & H2 & H). inversion H; subst ds'. clear H.
  apply (repeat_trajectory_vars_Ok ds ds1 n Hn) in H1 as (T & -> & HTs & HTl).
  assert (Hc1 : consistent (<["trajectory" := T]> ds))
    by by apply (consistent_insert_axis ds "trajectory" T n).
  assert (Hag1 : dim_agrees (<["trajectory" := T]> ds) sg_data_point n).
  { apply dim_agrees_insert; [done|]. intros m Hm. rewrite HTs in Hm.
    apply list_elem_of_singleton in Hm. by simplify_eq. }
  assert (Hn1 : dim_size (<["trajectory" := T]> ds) sg_data_point = Ok n).
  { apply of_option_Ok.
    apply (ds_dims_lookup _ "trajectory" T); [apply lookup_insert_eq| |done].
    rewrite HTs. apply list_elem_of_here. }
  destruct (add_gps_coordinates_Ok _ ds2 n Hc1 Hn1 H2)
    as (lt & la & lo & idxs & _ & _ & _ & _ & _ & Rla & Rlo & Rti & Rframe).
  assert (Haxis : forall x v, ds2 !! x = Some v ->
            Forall (fun d => d = sg_data_point) (dims v) -> on_axis n v).
  { intros x v Hx Hd.
    destruct (decide (aligned x)) as [Hal|Hal].
    - assert (exists ws, v = aligned_array n ws) as [ws ->].
      { destruct Hal as [-> | [-> | ->]]; simplify_eq; eauto. }
      left. split; [done|]. simpl. by rewrite length_writes, length_replicate.
    - rewrite Rframe in Hx by done.
      destruct (decide (x = "trajectory")) as [->|Hne].
      + rewrite lookup_insert_eq in Hx. simplify_eq. by left.
      + rewrite lookup_insert_ne in Hx by done.
        destruct (Hshape x v Hx) as [Hnd Hlen]. unfold dims, shape in *.
        destruct (sizes v) as [|[d m] [|[d' m'] rest]] eqn:Esz; simpl in *.
        * right. done.
        * left. apply Forall_cons in Hd as [Hd0 _]. subst d.
          assert (m = n) as ->.
          { apply (Hag x v); [done|]. rewrite Esz. apply list_elem_of_here. }
          split; [done|lia].
        * exfalso. apply Forall_cons in Hd as [Hd0 Hd'].
          apply Forall_cons in Hd' as [Hd1 _]. subst d d'.
          apply NoDup_cons in Hnd as [Hnin _].
          apply Hnin. apply list_elem_of_here. }
  split.
  - intros x v Hx.
    assert (is_Some (ds2 !! x)) as [w Hw].
    { unfold drop_dims in Hx. apply map_lookup_filter_Some in Hx as [Hx _]. eauto. }
    rewrite (drop_other_dims_lookup ds2 x w Hw) in Hx.
    destruct (decide _) as [Hd|]; [|done]. simplify_eq. by apply (Haxis x).
  - assert (Hctd2 : ds2 !! "ctd_time" = Some ctd).
    { rewrite Rframe by (intros [? | [? | ?]]; done).
      by rewrite lookup_insert_ne. }
    rewrite (drop_other_dims_lookup ds2 _ ctd Hctd2).
    rewrite decide_True; [by rewrite <- Hsz|].
    unfold dims. rewrite Hsz. by repeat constructor.
Qed.

(** * Further properties of the code *)

(** ** File selection *)

Lemma select_files_candidates int start_profile end_profile file_list :
  select_files int start_profile end_profile file_list =
    select_files int start_profile end_profile (candidates file_list).
Proof.
  induction file_list as [|file rest IH]; [done|].
  unfold candidates in *. simpl. destruct (endswith file ".nc") eqn:E; simpl.
  - by rewrite E, IH.
  - done.
Qed.

(** X1. The selection is the listing itself with the rejected entries
    removed: the selected files appear in listing order, as often as they
    are listed, and are exactly the entries with the extension whose
    profile number passes the bounds. *)
Theorem X1_selection_keeps_listing_order
    int start_profile end_profile file_list selected :
  select_files int start_profile end_profile file_list = Ok selected ->
  sublist selected file_list /\
  selected =
    List.filter (fun f => endswith f ".nc" &&
                          match profile_number int f with
                          | Ok p => in_profile_range start_profile end_profile p
                          | Raise _ => false
                          end) file_list.
Proof.
  revert selected. induction file_list as [|file rest IH]; intros selected H.
  - simpl in H. inversion H. split; [constructor | done].
  - simpl in H. simpl. destruct (endswith file ".nc"); simpl.
    + apply bind_Ok in H as (p & Hp & H). apply bind_Ok in H as (sel & Hsel & H).
      destruct (IH _ Hsel) as [Hsub Heq]. rewrite Hp. inversion H; subst selected.
      destruct (in_profile_range start_profile end_profile p).
      * split; [by apply sublist_skip | by f_equal].
      * split; [by apply sublist_cons | done].
    + destruct (IH _ H) as [Hsub Heq]. split; [by apply sublist_cons | done].
Qed.

Lemma X1_witness :
  sublist ["p0150015_20050301.nc"] listing_5_15_25 /\
  ["p0150015_20050301.nc"] =
    List.filter (fun f => endswith f ".nc" &&
                          match profile_number py_int f with
                          | Ok p => in_profile_range (Some 10%Z) (Some 20%Z) p
                          | Raise _ => false
                          end) listing_5_15_25.
Proof.
  apply (X1_selection_keeps_listing_order py_int (Some 10%Z) (Some 20%Z)).
  vm_compute. reflexivity.
Defined.

(** X2. The selection raises exactly when some listed name with the
    extension has no readable profile number, whatever the bounds are and
    also without bounds; names without the extension are never parsed, so
    the selection over a listing is the selection over its candidates. *)
Theorem X2_malformed_candidate_aborts int start_profile end_profile file_list :
  (to_option (select_files int start_profile end_profile file_list) = None <->
   exists f, f ∈ file_list /\ endswith f ".nc" = true /\
             to_option (profile_number int f) = None) /\
  select_files int start_profile end_profile file_list =
    select_files int start_profile end_profile (candidates file_list).
Proof.
  split.
  - induction file_list as [|file rest IH]; simpl.
    + split; [done|]. intros (f & Hf & _). by apply elem_of_nil in Hf.
    + destruct (endswith file ".nc") eqn:E.
      * destruct (profile_number int file) as [p|e] eqn:Ep; simpl.
        -- destruct (select_files int start_profile end_profile rest) as [sel|e];
             simpl in *; split.
           ++ done.
           ++ intros (f & [-> | Hf]%elem_of_cons & Hext & Hp).
              ** by rewrite Ep in Hp.
              ** assert (Some sel = None) by (apply IH; eauto). done.
           ++ intros _. destruct (proj1 IH eq_refl) as (f & Hf & Hext & Hp).
              exists f. split; [by apply list_elem_of_further | done].
           ++ done.
        -- split; [|done]. intros _. exists file.
           split; [apply list_elem_of_here|]. by rewrite Ep.
      * rewrite IH. split.
        -- intros (f & Hf & Hext & Hp). exists f.
           split; [by apply list_elem_of_further | done].
        -- intros (f & [-> | Hf]%elem_of_cons & Hext & Hp); [congruence|eauto].
  - apply select_files_candidates.
Qed.

Lemma substring_all s : String.substring 0 (String.length s) s = s.
Proof. induction s as [|a s IH]; simpl; [done|]. by rewrite IH. Qed.

Lemma endswith_inv s suffix :
  endswith s suffix = true -> exists pre, s = pre +:+ suffix.
Proof.
  unfold endswith. induction s as [|a s IH]; intros H.
  - apply andb_true_iff in H as [Hk Heq]. apply Nat.leb_le in Hk.
    simpl in Hk. destruct suffix; [|simpl in Hk; lia]. by exists "".
  - apply andb_true_iff in H as [Hk Heq]. apply Nat.leb_le in Hk.
    apply String.eqb_eq in Heq. simpl in Hk.
    destruct (decide (String.length suffix = S (String.length s))) as [E|NE].
    + exists "". simpl. etransitivity; [|exact Heq].
      rewrite E. change (S (String.length s)) with (String.length (String a s)).
      rewrite Nat.sub_diag. by rewrite substring_all.
    + destruct IH as [pre Hpre].
      * apply andb_true_iff. split; [apply Nat.leb_le; lia|].
        apply String.eqb_eq. etransitivity; [|exact Heq].
        simpl String.length.
        replace (S (String.length s) - String.length suffix)
          with (S (String.length s - String.length suffix)) by lia.
        simpl. by destruct (String.length suffix).
      * exists (String a pre). change (String a s = String a (pre +:+ suffix)).
        by f_equal.
Qed.

Lemma slice_from_ends n : forall t c,
  slice_from n (t +:+ String c "") = "" \/
  exists t', slice_from n (t +:+ String c "") = t' +:+ String c "".
Proof.
  induction n as [|n IH]; intros t c; [right; eauto|].
  destruct t as [|a t]; simpl.
  - left. by destruct n.
  - apply IH.
Qed.

Lemma list_ascii_of_string_snoc t c :
  String.list_ascii_of_string (t +:+ String c "") =
  String.list_ascii_of_string t ++ [c].
Proof. induction t as [|a t IH]; simpl; [done|]. by rewrite IH. Qed.

Lemma lstrip_snoc l c :
  is_space c = false -> exists l', lstrip (l ++ [c]) = l' ++ [c].
Proof.
  intros Hc. induction l as [|a l IH]; simpl.
  - rewrite Hc. by exists [].
  - destruct (is_space a); [done|]. by exists (a :: l).
Qed.

Lemma strip_snoc l c :
  is_space c = false -> exists l', strip (l ++ [c]) = l' ++ [c].
Proof.
  intros Hc. unfold strip. destruct (lstrip_snoc l c Hc) as [l' ->].
  rewrite rev_app_distr. simpl. rewrite Hc. simpl.
  rewrite rev_involutive. eauto.
Qed.

Lemma digits_snoc c : digit_of c = None ->
  forall l acc, digits acc (l ++ [c]) = None.
Proof.
  intros Hc. induction l as [|a l IH]; intros acc; simpl.
  - by rewrite Hc.
  - destruct (digit_of a); [apply IH | done].
Qed.

Lemma unsigned_snoc c l : digit_of c = None -> unsigned (l ++ [c]) = None.
Proof.
  intros Hc. unfold unsigned.
  destruct (l ++ [c]) eqn:E; [done|]. rewrite <- E. by apply digits_snoc.
Qed.

(** Text that ends in a character that is neither a digit nor white space
    is not an integer literal. *)
Lemma py_int_ends_non_digit t c :
  is_space c = false -> digit_of c = None ->
  py_int (t +:+ String c "") = Raise ValueError.
Proof.
  intros Hs Hd. unfold py_int. rewrite list_ascii_of_string_snoc.
  destruct (strip_snoc (String.list_ascii_of_string t) c Hs) as [l' ->].
  destruct l' as [|a l'].
  - simpl. destruct (Ascii.eqb c "-") eqn:E1.
    { apply Ascii.eqb_eq in E1. subst. done. }
    destruct (Ascii.eqb c "+") eqn:E2.
    { apply Ascii.eqb_eq in E2. subst. done. }
    by rewrite Hd.
  - rewrite <- app_comm_cons. cbv beta iota.
    destruct (Ascii.eqb a "-"); [by rewrite unsigned_snoc|].
    destruct (Ascii.eqb a "+"); [by rewrite unsigned_snoc|].
    rewrite app_comm_cons. by rewrite unsigned_snoc.
Qed.

(** X3. A name with the extension but without an underscore has no
    readable profile number: the text handed to [int] then runs to the end
    of the name, extension included, or is empty, and [int] refuses it. *)
Theorem X3_name_without_underscore_is_refused file :
  endswith file ".nc" = true -> split_first file = file ->
  profile_number py_int file = Raise ValueError.
Proof.
  intros Hext Hno. unfold profile_number. rewrite Hno.
  apply endswith_inv in Hext as [pre ->].
  assert (pre +:+ ".nc" = (pre +:+ ".n") +:+ String "c" "") as ->.
  { clear Hno. induction pre as [|a pre IH]; [done|].
    change (String a (pre +:+ ".nc")
            = String a ((pre +:+ ".n") +:+ String "c" "")).
    by f_equal. }
  destruct (slice_from_ends 4 (pre +:+ ".n") "c") as [-> | [t' ->]].
  - vm_compute. reflexivity.
  - by apply py_int_ends_non_digit.
Qed.

Lemma X3_witness : profile_number py_int "p0150005.nc" = Raise ValueError.
Proof.
  apply (X3_name_without_underscore_is_refused "p0150005.nc");
    vm_compute; reflexivity.
Defined.

(** X4. When nothing is selected, [load_dataset] does not return an empty
    dataset: the concatenation of no dataset raises [ValueError].  This is
    what happens when the listing has no name with the extension, and when
    the bounds are given in the wrong order. *)
Theorem X4_empty_selection_raises
    (open_file : string -> result Dataset) file_list start_profile end_profile :
  candidates file_list = [] \/
  (exists lo hi, start_profile = Some lo /\ end_profile = Some hi /\ (hi < lo)%Z /\
     Forall (fun f => exists p, profile_number py_int f = Ok p)
       (candidates file_list)) ->
  load_dataset open_file file_list start_profile end_profile = Raise ValueError.
Proof.
  intros H.
  assert (Hsel : select_files py_int start_profile end_profile file_list = Ok []).
  { destruct H as [Hnone | (lo & hi & -> & -> & Hlt & Hparse)].
    - by rewrite select_files_candidates, Hnone.
    - destruct (select_files_total py_int (Some lo) (Some hi) file_list Hparse)
        as [sel Hsel].
      rewrite Hsel. f_equal. apply select_files_Ok in Hsel as [_ ->].
      induction (candidates file_list) as [|f l IH]; [done|].
      inversion Hparse as [|? ? [p Hp] Hl]; subst.
      cbn [List.filter]. rewrite Hp.
      assert (in_profile_range (Some lo) (Some hi) p = false) as ->.
      { simpl. apply andb_false_iff. rewrite !Z.leb_gt. lia. }
      by apply IH. }
  unfold load_dataset. rewrite Hsel. done.
Qed.

Lemma X4_witness :
  load_dataset (fun _ => Ok diveA) listing_5_15_25 (Some 20%Z) (Some 10%Z)
    = Raise ValueError.
Proof.
  apply (X4_empty_selection_raises (fun _ => Ok diveA) listing_5_15_25).
  right. exists 20%Z, 10%Z. split; [done|]. split; [done|]. split; [lia|].
  repeat constructor; eexists; vm_compute; reflexivity.
Defined.

(** ** Trajectory repair *)

Lemma assign_all_Ok n source l :
  assign_all n source = Ok l ->
  length (shape source) <= 1 /\
  ((length (shape source) = 1 /\ length (values source) = n /\ l = values source)
   \/ exists v, values source = [v] /\ l = replicate n v).
Proof.
  unfold assign_all. intros H.
  destruct (shape source) as [|k [|? ?]]; [| |done]; simpl.
  - split; [lia|]. destruct (values source) as [|v [|? ?]]; simplify_eq. eauto.
  - split; [lia|].
    destruct (decide (length (values source) = n)); simplify_eq; [by left|].
    destruct (values source) as [|v [|? ?]]; simplify_eq. eauto.
Qed.

Lemma assign_all_fits n source :
  length (shape source) <= 1 ->
  length (values source) = 1 \/
    (length (shape source) = 1 /\ length (values source) = n) ->
  exists l, assign_all n source = Ok l.
Proof.
  unfold assign_all. intros Hnd Hfit.
  destruct (shape source) as [|k [|? ?]]; simpl in *; [| |lia].
  - destruct Hfit as [H1 | [? _]]; [|lia].
    destruct (values source) as [|v [|? ?]]; simpl in H1; try lia. eauto.
  - destruct (decide (length (values source) = n)); [eauto|].
    destruct Hfit as [H1 | [_ ?]]; [|done].
    destruct (values source) as [|v [|? ?]]; simpl in H1; try lia. eauto.
Qed.

Lemma repeat_trajectory_vars_inv (ds ds' : Dataset) :
  repeat_trajectory_vars ds = Ok ds' ->
  exists trajectory c n filled,
    ds !! "trajectory" = Some trajectory /\
    attrs trajectory !! "comment" = Some c /\
    dim_size ds sg_data_point = Ok n /\
    assign_all n trajectory = Ok filled /\
    ds' = <["trajectory" :=
             {| sizes := [(sg_data_point, n)]; values := filled;
                attrs := <["comment" := c]> ∅ |}]> ds.
Proof.
  unfold repeat_trajectory_vars, getitem. intros H.
  apply bind_Ok in H as (traj & Ht & H). apply of_option_Ok in Ht.
  apply bind_Ok in H as (c & Hc & H). apply of_option_Ok in Hc.
  apply bind_Ok in H as (n & Hn & H).
  apply bind_Ok in H as (filled & Hf & H). inversion H; subst.
  exists traj, c, n, filled. repeat split; try done. apply insert_insert_eq.
Qed.

(** X5. [repeat_trajectory_vars] returns exactly when the dive has a
    trajectory variable with a comment, has a measurement axis, of some
    length [n], and the trajectory variable is at most one-dimensional with
    either one element or, on one dimension, [n] elements.  When the
    variable, its comment or the axis is missing the error is [KeyError]. *)
Theorem X5_trajectory_repair_returns_iff (ds : Dataset) :
  ((exists ds', repeat_trajectory_vars ds = Ok ds') <->
   exists trajectory c n,
     ds !! "trajectory" = Some trajectory /\
     attrs trajectory !! "comment" = Some c /\
     dim_size ds sg_data_point = Ok n /\
     length (shape trajectory) <= 1 /\
     (length (values trajectory) = 1 \/
      (length (shape trajectory) = 1 /\ length (values trajectory) = n))) /\
  (ds !! "trajectory" = None \/
   (exists trajectory, ds !! "trajectory" = Some trajectory /\
      attrs trajectory !! "comment" = None) \/
   ds_dims ds !! sg_data_point = None ->
   repeat_trajectory_vars ds = Raise KeyError).
Proof.
  split; [split|].
  - intros [ds' H].
    apply repeat_trajectory_vars_inv in H as (traj & c & n & filled & Ht & Hc & Hn & Hf & _).
    exists traj, c, n. repeat split; try done.
    + by apply assign_all_Ok in Hf as [? _].
    + apply assign_all_Ok in Hf as [_ [(? & ? & _) | (v & Hv & _)]]; [by right|].
      left. by rewrite Hv.
  - intros (traj & c & n & Ht & Hc & Hn & Hnd & Hfit).
    destruct (assign_all_fits n traj Hnd Hfit) as [l Hl].
    unfold repeat_trajectory_vars, getitem. rewrite Ht. simpl. rewrite Hc. simpl.
    rewrite Hn. simpl. rewrite Hl. simpl. eauto.
  - unfold repeat_trajectory_vars, getitem, dim_size.
    intros [Ht | [(traj & Ht & Hc) | Hn]].
    + by rewrite Ht.
    + rewrite Ht. simpl. by rewrite Hc.
    + destruct (ds !! "trajectory") as [traj|]; [|done]. simpl.
      destruct (attrs traj !! "comment"); [|done]. simpl. by rewrite Hn.
Qed.

(** X7. When [repeat_trajectory_vars] returns, the new trajectory variable
    is on the measurement axis and keeps the comment as its only attribute
    (units and any other attribute of the original are gone); its elements
    are the original ones when there were as many as the axis is long, and
    otherwise the single original element repeated; every other variable is
    as before. *)
Theorem X7_trajectory_repair_result (ds ds' : Dataset) :
  repeat_trajectory_vars ds = Ok ds' ->
  exists trajectory repaired c n,
    ds !! "trajectory" = Some trajectory /\
    attrs trajectory !! "comment" = Some c /\
    dim_size ds sg_data_point = Ok n /\
    ds' !! "trajectory" = Some repaired /\
    sizes repaired = [(sg_data_point, n)] /\
    length (values repaired) = n /\
    attrs repaired = {["comment" := c]} /\
    (values repaired = values trajectory \/
     exists v, values trajectory = [v] /\ values repaired = replicate n v) /\
    (forall x, x <> "trajectory" -> ds' !! x = ds !! x).
Proof.
  intros H.
  apply repeat_trajectory_vars_inv in H
    as (traj & c & n & filled & Ht & Hc & Hn & Hf & ->).
  exists traj. eexists. exists c, n.
  split; [done|]. split; [done|]. split; [done|].
  split; [apply lookup_insert_eq|]. simpl.
  split; [done|]. split; [by eapply assign_all_length|].
  split; [apply insert_empty|]. split.
  - apply assign_all_Ok in Hf as [_ [(_ & _ & ->) | (v & Hv & ->)]]; eauto.
  - intros x Hx. by rewrite lookup_insert_ne.
Qed.

Lemma X7_witness :
  exists trajectory repaired c n,
    dive_trajectory !! "trajectory" = Some trajectory /\
    attrs trajectory !! "comment" = Some c /\
    dim_size dive_trajectory sg_data_point = Ok n /\
    returned (repeat_trajectory_vars dive_trajectory) !! "trajectory"
      = Some repaired /\
    sizes repaired = [(sg_data_point, n)] /\
    length (values repaired) = n /\
    attrs repaired = {["comment" := c]} /\
    (values repaired = values trajectory \/
     exists v, values trajectory = [v] /\ values repaired = replicate n v) /\
    (forall x, x <> "trajectory" ->
       returned (repeat_trajectory_vars dive_trajectory) !! x
         = dive_trajectory !! x).
Proof.
  apply (X7_trajectory_repair_result dive_trajectory).
  vm_compute. reflexivity.
Defined.

(** X6. Repairing a repaired dive changes nothing: a second run of
    [repeat_trajectory_vars] returns the dataset it is given. *)
Theorem X6_trajectory_repair_idempotent (ds ds' : Dataset) :
  consistent ds ->
  repeat_trajectory_vars ds = Ok ds' ->
  repeat_trajectory_vars ds' = Ok ds'.
Proof.
  intros Hc H.
  apply repeat_trajectory_vars_inv in H
    as (traj & c & n & filled & Ht & Hcm & Hn & Hf & ->).
  pose proof (consistent_dim_agrees _ _ _ Hc Hn) as Hag.
  set (T := {| sizes := [(sg_data_point, n)]; values := filled;
               attrs := <["comment" := c]> ∅ |}).
  assert (Hn' : dim_size (<["trajectory" := T]> ds) sg_data_point = Ok n).
  { apply of_option_Ok.
    apply (ds_dims_lookup _ "trajectory" T); [apply lookup_insert_eq| |].
    - apply list_elem_of_here.
    - apply dim_agrees_insert; [done|]. intros m Hm.
      apply list_elem_of_singleton in Hm. by inversion Hm. }
  assert (Hf' : assign_all n T = Ok filled).
  { unfold assign_all. simpl. rewrite decide_True; [done|].
    by eapply assign_all_length. }
  unfold repeat_trajectory_vars, getitem. rewrite lookup_insert_eq. simpl.
  rewrite lookup_insert_eq. simpl. rewrite Hn'. simpl. rewrite Hf'. simpl.
  by rewrite !insert_insert_eq.
Qed.

Lemma X6_witness :
  repeat_trajectory_vars (returned (repeat_trajectory_vars dive_trajectory))
    = Ok (returned (repeat_trajectory_vars dive_trajectory)).
Proof.
  apply (X6_trajectory_repair_idempotent dive_trajectory).
  - by_evaluation.
  - vm_compute. reflexivity.
Defined.

Lemma X5_witness : repeat_trajectory_vars diveA = Raise KeyError.
Proof.
  apply (proj2 (X5_trajectory_repair_returns_iff diveA)).
  left. vm_compute. reflexivity.
Defined.

(** ** GPS alignment *)

Lemma frame_consistent (ds ds' : Dataset) n :
  consistent ds -> dim_agrees ds sg_data_point n ->
  (forall x v, ds' !! x = Some v ->
     ds !! x = Some v \/ sizes v = [(sg_data_point, n)]) ->
  consistent ds' /\ dim_agrees ds' sg_data_point n.
Proof.
  intros Hc Hag Hframe.
  assert (Hag' : dim_agrees ds' sg_data_point n).
  { intros x v m Hx Hm. destruct (Hframe x v Hx) as [Hold | Hs].
    - by apply (Hag x v).
    - rewrite Hs in Hm. apply list_elem_of_singleton in Hm. by inversion Hm. }
  split; [|done].
  rewrite consistent_lookup in Hc. apply consistent_lookup.
  intros x v y w d k m Hx Hy Hk Hm.
  destruct (Hframe x v Hx) as [Hx' | Hs], (Hframe y w Hy) as [Hy' | Hs'].
  - eauto.
  - rewrite Hs' in Hm. apply list_elem_of_singleton in Hm. simplify_eq.
    by apply (Hag x v).
  - rewrite Hs in Hk. apply list_elem_of_singleton in Hk. simplify_eq.
    symmetry. by apply (Hag y w).
  - rewrite Hs in Hk. rewrite Hs' in Hm.
    apply list_elem_of_singleton in Hk, Hm. congruence.
Qed.

Lemma add_gps_coordinates_dim_size (ds ds' : Dataset) :
  add_gps_coordinates ds = Ok ds' -> exists n, dim_size ds sg_data_point = Ok n.
Proof.
  unfold add_gps_coordinates. intros H. apply bind_Ok in H as (n & Hn & _). eauto.
Qed.

(** X8. [add_gps_coordinates] touches nothing but the three aligned
    variables: the returned dataset has the variables it was given and the
    three aligned ones, and every other variable, the measurement times and
    the logged fixes included, is exactly as it was. *)
Theorem X8_alignment_frame (ds ds' : Dataset) :
  consistent ds ->
  add_gps_coordinates ds = Ok ds' ->
  dom ds' = dom ds ∪ {["gps_lat"; "gps_lon"; "gps_time"]} /\
  (forall x, ~ aligned x -> ds' !! x = ds !! x) /\
  ds' !! "ctd_time" = ds !! "ctd_time" /\
  ds' !! "log_gps_time" = ds !! "log_gps_time" /\
  ds' !! "log_gps_lat" = ds !! "log_gps_lat" /\
  ds' !! "log_gps_lon" = ds !! "log_gps_lon".
Proof.
  intros Hc H. destruct (add_gps_coordinates_dim_size _ _ H) as [n Hn].
  destruct (add_gps_coordinates_Ok ds ds' n Hc Hn H)
    as (lt & la & lo & idxs & _ & _ & _ & _ & _ & Rla & Rlo & Rti & Rframe).
  split; [|split; [done|]].
  - apply set_eq. intros x. rewrite elem_of_union, !elem_of_dom.
    destruct (decide (aligned x)) as [Hal | Hal].
    + split.
      * intros _. right. destruct Hal as [-> | [-> | ->]]; set_solver.
      * intros _. destruct Hal as [-> | [-> | ->]]; eauto.
    + rewrite Rframe by done. split; [by left|].
      intros [? | Hx]; [done|]. exfalso. apply Hal. unfold aligned.
      rewrite !elem_of_union, !elem_of_singleton in Hx. tauto.
  - repeat split; apply Rframe; intros [? | [? | ?]]; done.
Qed.

Lemma X8_witness :
  dom (returned (add_gps_coordinates diveA))
    = dom diveA ∪ {["gps_lat"; "gps_lon"; "gps_time"]} /\
  (forall x, ~ aligned x ->
     returned (add_gps_coordinates diveA) !! x = diveA !! x) /\
  returned (add_gps_coordinates diveA) !! "ctd_time" = diveA !! "ctd_time" /\
  returned (add_gps_coordinates diveA) !! "log_gps_time"
    = diveA !! "log_gps_time" /\
  returned (add_gps_coordinates diveA) !! "log_gps_lat"
    = diveA !! "log_gps_lat" /\
  returned (add_gps_coordinates diveA) !! "log_gps_lon"
    = diveA !! "log_gps_lon".
Proof.
  apply (X8_alignment_frame diveA).
  - by_evaluation.
  - vm_compute. reflexivity.
Defined.

(** X9. Aligning an aligned dive changes nothing: the three variables are
    rebuilt from the measurement times and the logged fixes alone, so a
    second run of [add_gps_coordinates] returns the dataset it is given. *)
Theorem X9_alignment_idempotent (ds ds' : Dataset) :
  consistent ds ->
  add_gps_coordinates ds = Ok ds' ->
  add_gps_coordinates ds' = Ok ds'.
Proof.
  intros Hc H. destruct (add_gps_coordinates_dim_size _ _ H) as [n Hn].
  pose proof (consistent_dim_agrees _ _ _ Hc Hn) as Hag.
  destruct (add_gps_coordinates_Ok ds ds' n Hc Hn H)
    as (lt & la & lo & idxs & _ & _ & _ & _ & _ & Rla & Rlo & Rti & Rframe).
  destruct (frame_consistent ds ds' n Hc Hag) as [Hc' Hag'].
  { intros x v Hx. destruct (decide (aligned x)) as [Hal | Hal].
    - right.
      destruct Hal as [-> | [-> | ->]];
        [rewrite Rla in Hx | rewrite Rlo in Hx | rewrite Rti in Hx];
        by inversion Hx.
    - left. by rewrite <- Rframe. }
  assert (Hn' : dim_size ds' sg_data_point = Ok n).
  { apply of_option_Ok. eapply ds_dims_lookup; [exact Rla| |done].
    apply list_elem_of_here. }
  rewrite (add_gps_frames ds' n Hc' Hn'). rewrite <- H.
  rewrite (add_gps_frames ds n Hc Hn). unfold getattr.
  rewrite !Rframe by (intros [? | [? | ?]]; done).
  assert (<["gps_time" := full_nan sg_data_point n]>
            (<["gps_lon" := full_nan sg_data_point n]>
               (<["gps_lat" := full_nan sg_data_point n]> ds'))
          = <["gps_time" := full_nan sg_data_point n]>
              (<["gps_lon" := full_nan sg_data_point n]>
                 (<["gps_lat" := full_nan sg_data_point n]> ds))) as ->; [|done].
  apply map_eq. intros x.
  destruct (decide (x = "gps_time")) as [->|N1]; [by rewrite !lookup_insert_eq|].
  rewrite !(lookup_insert_ne _ "gps_time") by done.
  destruct (decide (x = "gps_lon")) as [->|N2]; [by rewrite !lookup_insert_eq|].
  rewrite !(lookup_insert_ne _ "gps_lon") by done.
  destruct (decide (x = "gps_lat")) as [->|N3]; [by rewrite !lookup_insert_eq|].
  rewrite !(lookup_insert_ne _ "gps_lat") by done.
  apply Rframe. intros [? | [? | ?]]; done.
Qed.

Lemma X9_witness :
  add_gps_coordinates (returned (add_gps_coordinates dive_collision))
    = Ok (returned (add_gps_coordinates dive_collision)).
Proof.
  apply (X9_alignment_idempotent dive_collision).
  - by_evaluation.
  - vm_compute. reflexivity.
Defined.

Lemma argmin_all_missing xs :
  Forall (fun c => c = NaN) xs -> argmin xs = Raise ValueError.
Proof.
  intros Hall. destruct (argmin xs) as [k|e] eqn:E.
  - apply argmin_Ok in E as (m & Hm & _).
    rewrite Forall_forall in Hall.
    by specialize (Hall _ (list_elem_of_lookup_2 _ _ _ Hm)).
  - unfold argmin in E. by destruct (argmin_from 0 None xs).
Qed.

Lemma time_diff_all_missing ctd g :
  Forall (fun c => c = NaN) ctd \/ g = NaN ->
  Forall (fun c => c = NaN) (time_diff ctd g).
Proof.
  intros H. unfold time_diff. apply Forall_fmap, Forall_forall. intros t Ht.
  simpl. destruct H as [Hall | ->].
  - rewrite Forall_forall in Hall. by rewrite (Hall t Ht).
  - by destruct t.
Qed.

(** X10. With at least one fix, [add_gps_coordinates] raises [ValueError]
    when the dive has no usable measurement time, that is when the
    measurement times are empty or all missing, and also when the time of
    the first fix is missing: [argmin] has nothing to choose from. *)
Theorem X10_no_nearest_sample_raises (ds : Dataset) n lt la lo ctd fx rest :
  consistent ds -> dim_size ds sg_data_point = Ok n ->
  ds !! "log_gps_time" = Some lt -> ds !! "log_gps_lat" = Some la ->
  ds !! "log_gps_lon" = Some lo -> ds !! "ctd_time" = Some ctd ->
  fixes_of lt la lo = fx :: rest ->
  Forall (fun c => c = NaN) (values ctd) \/ fix_time fx = NaN ->
  add_gps_coordinates ds = Raise ValueError.
Proof.
  intros Hc Hn Hlt Hla Hlo Hctd Hfix Hmiss.
  rewrite (add_gps_frames ds n Hc Hn). unfold getattr.
  rewrite Hlt, Hla, Hlo. simpl. rewrite Hfix.
  destruct fx as [[t a] o]. unfold fix_time in Hmiss. simpl in Hmiss. simpl.
  unfold find_nearest_index, getitem. rewrite !lookup_insert_ne by done.
  rewrite Hctd. simpl.
  by rewrite (argmin_all_missing _ (time_diff_all_missing _ _ Hmiss)).
Qed.

Lemma X10_witness : add_gps_coordinates dive_no_sample = Raise ValueError.
Proof.
  apply (X10_no_nearest_sample_raises dive_no_sample 0
           (array1 "gps_info" (nums [150]%Z)) (array1 "gps_info" (nums [10]%Z))
           (array1 "gps_info" (nums [20]%Z)) (array1 sg_data_point [])
           (Num 150, Num 10, Num 20) []).
  - by_evaluation.
  - vm_compute. reflexivity.
  - vm_compute. reflexivity.
  - vm_compute. reflexivity.
  - vm_compute. reflexivity.
  - vm_compute. reflexivity.
  - reflexivity.
  - left. constructor.
Defined.

(** X11. The variables [add_gps_coordinates] needs: without a measurement
    axis it raises [KeyError]; with one but without one of the three logged
    fix variables it raises [AttributeError]; with those, at least one fix,
    and no measurement times it raises [KeyError]. *)
Theorem X11_alignment_missing_variable (ds : Dataset) :
  (ds_dims ds !! sg_data_point = None ->
   add_gps_coordinates ds = Raise KeyError) /\
  (forall n, consistent ds -> dim_size ds sg_data_point = Ok n ->
     ds !! "log_gps_time" = None \/ ds !! "log_gps_lat" = None \/
     ds !! "log_gps_lon" = None ->
     add_gps_coordinates ds = Raise AttributeError) /\
  (forall n lt la lo fx rest,
     consistent ds -> dim_size ds sg_data_point = Ok n ->
     ds !! "log_gps_time" = Some lt -> ds !! "log_gps_lat" = Some la ->
     ds !! "log_gps_lon" = Some lo -> fixes_of lt la lo = fx :: rest ->
     ds !! "ctd_time" = None ->
     add_gps_coordinates ds = Raise KeyError).
Proof.
  split; [|split].
  - intros Hn. unfold add_gps_coordinates, dim_size. by rewrite Hn.
  - intros n Hc Hn Hmiss. rewrite (add_gps_frames ds n Hc Hn). unfold getattr.
    destruct (ds !! "log_gps_time") as [lt|]; [|done]. simpl.
    destruct (ds !! "log_gps_lat") as [la|]; [|done]. simpl.
    destruct (ds !! "log_gps_lon") as [lo|]; [|done].
    by destruct Hmiss as [? | [? | ?]].
  - intros n lt la lo fx rest Hc Hn Hlt Hla Hlo Hfix Hctd.
    rewrite (add_gps_frames ds n Hc Hn). unfold getattr.
    rewrite Hlt, Hla, Hlo. simpl. rewrite Hfix.
    destruct fx as [[t a] o]. simpl.
    unfold find_nearest_index, getitem. rewrite !lookup_insert_ne by done.
    by rewrite Hctd.
Qed.

Lemma X11_witness : add_gps_coordinates (∅ : Dataset) = Raise KeyError.
Proof.
  apply (proj1 (X11_alignment_missing_variable ∅)). vm_compute. reflexivity.
Defined.



(** X14. A fix taken exactly at the time of a sample is mapped to a sample
    with that very time, the first of them. *)
Theorem X14_fix_at_sample_time (ds : Dataset) ctd tg i j :
  ds !! "ctd_time" = Some ctd ->
  values ctd !! j = Some (Num tg) ->
  find_nearest_index ds (Num tg) = Ok i ->
  values ctd !! i = Some (Num tg) /\ i <= j.
Proof.
  intros Hctd Hj Hi.
  apply find_nearest_index_Ok in Hi as (ctd' & ti & tg' & Hctd' & Hg & Hti & Hmin).
  rewrite Hctd in Hctd'. inversion Hctd'; subst ctd'. inversion Hg; subst tg'.
  destruct (Hmin j tg Hj) as [Hle Hlt].
  assert (ti = tg) as -> by lia. split; [done|].
  destruct (decide (j < i)) as [Hji|]; [|lia]. specialize (Hlt Hji). lia.
Qed.

Lemma X14_witness :
  values (array1 sg_data_point (nums [100; 200; 300]%Z)) !! 1
    = Some (Num 200) /\ 1 <= 1.
Proof.
  apply (X14_fix_at_sample_time diveA
           (array1 sg_data_point (nums [100; 200; 300]%Z)) 200%Z 1 1).
  - vm_compute. reflexivity.
  - reflexivity.
  - vm_compute. reflexivity.
Defined.

(** X13. The loop takes the three logged arrays in step and stops with the
    shortest: fix [p] exists exactly when all three arrays have an entry
    [p], and entries beyond the shortest array are never used. *)
Theorem X13_fixes_stop_at_shortest (lt la lo : DataArray) :
  length (fixes_of lt la lo)
    = Nat.min (Nat.min (length (values lt)) (length (values la)))
              (length (values lo)) /\
  forall p t a o,
    fixes_of lt la lo !! p = Some (t, a, o) <->
    values lt !! p = Some t /\ values la !! p = Some a /\ values lo !! p = Some o.
Proof.
  unfold fixes_of. generalize (values lt), (values la), (values lo).
  clear. intros ts. induction ts as [|t ts IH]; intros las los.
  - split; [done|]. intros p t a o. simpl. split; [done|]. intros [? _]. done.
  - destruct las as [|a las]; [|destruct los as [|o los]]; simpl.
    + split; [done|]. intros p ? ? ?. split; [done|]. by intros (_ & ? & _).
    + split; [lia|]. intros p ? ? ?. split; [done|]. by intros (_ & _ & ?).
    + destruct (IH las los) as [Hlen Hlook]. split; [lia|].
      intros [|p] t' a' o'; simpl.
      * split; [by intros [= -> -> ->] | by intros ([= ->] & [= ->] & [= ->])].
      * apply Hlook.
Qed.

(** ** Dropping dimensions and extracting variables *)

Lemma kept_dims_on_axis (ds : Dataset) x v :
  drop_dims ds (dims_other_than ds sg_data_point) !! x = Some v ->
  ds !! x = Some v /\ Forall (fun d => d = sg_data_point) (dims v).
Proof.
  intros Hx.
  assert (Hds : ds !! x = Some v).
  { unfold drop_dims in Hx. by apply map_lookup_filter_Some in Hx as [? _]. }
  split; [done|]. rewrite (drop_other_dims_lookup ds x v Hds) in Hx.
  by destruct (decide _).
Qed.

(** X15. After the other dimensions are dropped the measurement axis is
    the only dimension the dataset can still have, and dropping the other
    dimensions once more changes nothing. *)
Theorem X15_drop_dims_leaves_one_axis (ds : Dataset) :
  let kept := drop_dims ds (dims_other_than ds sg_data_point) in
  (forall d, d ∈ dom (ds_dims kept) -> d = sg_data_point) /\
  drop_dims kept (dims_other_than kept sg_data_point) = kept.
Proof.
  intros kept.
  assert (Hdims : forall d, d ∈ dom (ds_dims kept) -> d = sg_data_point).
  { intros d [n Hn]%elem_of_dom.
    apply ds_dims_Some in Hn as (x & v & Hx & Hd).
    apply kept_dims_on_axis in Hx as [_ Hall].
    rewrite Forall_forall in Hall. apply Hall. unfold dims.
    apply list_elem_of_fmap. by exists (d, n). }
  split; [done|]. unfold drop_dims at 1. apply map_filter_id.
  intros x v Hx. simpl. apply set_eq. intros d.
  split; [|by intros ?%elem_of_empty].
  rewrite elem_of_intersection. unfold dims_other_than.
  rewrite elem_of_difference, elem_of_singleton.
  intros [_ [Hd Hne]]. by apply Hdims in Hd.
Qed.



(** X17. What the per-file work of [load_dataset] produces.  For an opened
    file whose arrays fill their shapes and whose measurement times lie on
    a measurement axis of [n] samples, when the work returns: every
    variable left is on the measurement axis with [n] elements, or a
    scalar; the measurement times, the trajectory and the three aligned
    variables are there, each on the axis; and every variable of the file
    that has another dimension, the logged fixes among them, is gone. *)
Theorem X17_processed_dive (ds ds' : Dataset) n :
  consistent ds -> map_Forall (fun _ v => well_shaped v) ds ->
  sizes <$> ds !! "ctd_time" = Some [(sg_data_point, n)] ->
  process_dive ds = Ok ds' ->
  measurement_record n ds' /\
  (forall x, x ∈ ["ctd_time"; "trajectory"; "gps_lat"; "gps_lon"; "gps_time"] ->
     sizes <$> ds' !! x = Some [(sg_data_point, n)]) /\
  (forall x v, ds !! x = Some v -> x <> "trajectory" -> ~ aligned x ->
     (exists d, d ∈ dims v /\ d <> sg_data_point) -> ds' !! x = None).
Proof.
  intros Hc Hshape Hctd H.
  pose proof (process_dive_record ds ds' n Hc Hshape Hctd H) as Hrec.
  split; [done|].
  destruct (ds !! "ctd_time") as [ctd|] eqn:Ectd; [|done].
  simpl in Hctd.
  assert (Hsz : sizes ctd = [(sg_data_point, n)]) by congruence. clear Hctd.
  assert (Hag : dim_agrees ds sg_data_point n).
  { intros x v m Hx Hm. rewrite consistent_lookup in Hc.
    apply (Hc x v "ctd_time" ctd sg_data_point); [done..|].
    rewrite Hsz. apply list_elem_of_here. }
  assert (Hn : dim_size ds sg_data_point = Ok n).
  { apply of_option_Ok. apply (ds_dims_lookup ds "ctd_time" ctd); [done| |done].
    rewrite Hsz. apply list_elem_of_here. }
  unfold process_dive in H.
  apply bind_Ok in H as (ds1 & H1 & H).
  apply bind_Ok in H as (ds2 & H2 & H). inversion H; subst ds'. clear H.
  apply (repeat_trajectory_vars_Ok ds ds1 n Hn) in H1 as (T & -> & HTs & HTl).
  assert (Hc1 : consistent (<["trajectory" := T]> ds))
    by by apply (consistent_insert_axis ds "trajectory" T n).
  assert (Hn1 : dim_size (<["trajectory" := T]> ds) sg_data_point = Ok n).
  { apply of_option_Ok.
    apply (ds_dims_lookup _ "trajectory" T); [apply lookup_insert_eq| |].
    - rewrite HTs. apply list_elem_of_here.
    - apply dim_agrees_insert; [done|]. intros m Hm. rewrite HTs in Hm.
      apply list_elem_of_singleton in Hm. by inversion Hm. }
  destruct (add_gps_coordinates_Ok _ ds2 n Hc1 Hn1 H2)
    as (lt & la & lo & idxs & _ & _ & _ & _ & _ & Rla & Rlo & Rti & Rframe).
  assert (Hkeep : forall x v, ds2 !! x = Some v -> sizes v = [(sg_data_point, n)] ->
            sizes <$> drop_dims ds2 (dims_other_than ds2 sg_data_point) !! x
              = Some [(sg_data_point, n)]).
  { intros x v Hx Hs. rewrite (drop_other_dims_lookup ds2 x v Hx).
    rewrite decide_True; [by rewrite <- Hs|].
    unfold dims. rewrite Hs. by repeat constructor. }
  split.
  - intros x Hx. repeat (apply elem_of_cons in Hx as [-> | Hx]).
    + apply (Hkeep _ ctd); [|done].
      rewrite Rframe by (intros [? | [? | ?]]; done). by rewrite lookup_insert_ne.
    + apply (Hkeep _ T); [|done].
      rewrite Rframe by (intros [? | [? | ?]]; done). apply lookup_insert_eq.
    + by apply (Hkeep _ _ Rla).
    + by apply (Hkeep _ _ Rlo).
    + by apply (Hkeep _ _ Rti).
    + by apply elem_of_nil in Hx.
  - intros x v Hx Hnt Hal (d & Hd & Hne).
    assert (Hx2 : ds2 !! x = Some v).
    { rewrite Rframe by done. by rewrite lookup_insert_ne. }
    rewrite (drop_other_dims_lookup ds2 x v Hx2).
    rewrite decide_False; [done|]. intros Hall.
    rewrite Forall_forall in Hall. by apply Hall in Hd.
Qed.

Lemma X17_witness :
  measurement_record 3 (returned (process_dive dive_file)) /\
  (forall x, x ∈ ["ctd_time"; "trajectory"; "gps_lat"; "gps_lon"; "gps_time"] ->
     sizes <$> returned (process_dive dive_file) !! x
       = Some [(sg_data_point, 3)]) /\
  (forall x v, dive_file !! x = Some v -> x <> "trajectory" -> ~ aligned x ->
     (exists d, d ∈ dims v /\ d <> sg_data_point) ->
     returned (process_dive dive_file) !! x = None).
Proof.
  apply (X17_processed_dive dive_file (returned (process_dive dive_file)) 3).
  - by_evaluation.
  - by_evaluation.
  - vm_compute. reflexivity.
  - vm_compute. reflexivity.
Defined.

(** ** Loading and assembling *)

Lemma mapM_Ok {A B} (f : A -> result B) (l : list A) (ks : list B) :
  mapM f l = Ok ks <-> Forall2 (fun x y => f x = Ok y) l ks.
Proof.
  revert ks. induction l as [|x l IH]; intros ks; simpl.
  - split.
    + intros [= <-]. constructor.
    + intros H. by inversion H.
  - split.
    + intros H. apply bind_Ok in H as (y & Hy & H).
      apply bind_Ok in H as (k & Hk & H). inversion H; subst.
      constructor; [done|]. by apply IH.
    + intros H. inversion H as [|? y ? k Hy Hk]; subst.
      rewrite Hy. simpl. apply IH in Hk. rewrite Hk. done.
Qed.

Lemma load_dataset_file_fails
    (open_file : string -> result Dataset) file_list start_profile end_profile
    selected file :
  select_files py_int start_profile end_profile file_list = Ok selected ->
  file ∈ selected ->
  to_option (open_file file ≫= process_dive) = None ->
  to_option (load_dataset open_file file_list start_profile end_profile) = None.
Proof.
  intros Hsel Hin Hfail. unfold load_dataset. rewrite Hsel. simpl.
  destruct (mapM _ selected) as [datasets|e] eqn:E; [|done]. exfalso.
  apply mapM_Ok in E. apply list_elem_of_lookup_1 in Hin as [i Hi].
  destruct (Forall2_lookup_l _ _ _ _ _ E Hi) as (ds' & _ & Hf).
  simpl in Hf. change (open_file file ≫= process_dive = Ok ds') in Hf.
  by rewrite Hf in Hfail.
Qed.

(** X18. [load_dataset] is all or nothing: when it returns, every selected
    file was opened and processed, and the result is the assembly of all of
    them in selection order; when one selected file cannot be opened or
    processed, it does not return. *)
Theorem X18_load_is_all_or_nothing
    (open_file : string -> result Dataset) file_list start_profile end_profile :
  (forall out,
     load_dataset open_file file_list start_profile end_profile = Ok out ->
     exists selected datasets,
       select_files py_int start_profile end_profile file_list = Ok selected /\
       Forall2 (fun file ds' =>
                  exists ds, open_file file = Ok ds /\ process_dive ds = Ok ds')
         selected datasets /\
       datasets <> [] /\
       assemble datasets = Ok out) /\
  (forall selected file,
     select_files py_int start_profile end_profile file_list = Ok selected ->
     file ∈ selected ->
     to_option (open_file file ≫= process_dive) = None ->
     to_option (load_dataset open_file file_list start_profile end_profile)
       = None).
Proof.
  split.
  - intros out H. unfold load_dataset in H.
    apply bind_Ok in H as (selected & Hsel & H).
    apply bind_Ok in H as (datasets & Hds & H).
    exists selected, datasets. split; [done|]. split; [|split; [|done]].
    + apply mapM_Ok in Hds. eapply Forall2_impl; [exact Hds|].
      intros file ds' Hf. simpl in Hf. apply bind_Ok in Hf as (ds & ? & ?). eauto.
    + intros ->. unfold assemble in H. simpl in H. done.
  - apply load_dataset_file_fails.
Qed.

Lemma X18_witness :
  to_option (load_dataset (fun _ => Ok diveA) listing_5_15_25 None None) = None.
Proof.
  apply (proj2 (X18_load_is_all_or_nothing (fun _ => Ok diveA)
                  listing_5_15_25 None None)
           listing_5_15_25 "p0150005_20050213.nc").
  - vm_compute. reflexivity.
  - apply list_elem_of_here.
  - vm_compute. reflexivity.
Defined.



Lemma take_at_seq (xs : list cell) : take_at (seq 0 (length xs)) xs = xs.
Proof.
  unfold take_at. apply list_eq. intros i. rewrite list_lookup_fmap.
  destruct (decide (i < length xs)) as [Hi|Hi].
  - rewrite lookup_seq_lt by done. simpl.
    destruct (lookup_lt_is_Some_2 xs i Hi) as [x Hx]. by rewrite Hx.
  - rewrite lookup_seq_ge by lia. simpl. symmetry.
    apply lookup_ge_None. lia.
Qed.


Lemma count_present_app (l l' : list cell) :
  count_present (l ++ l') = count_present l + count_present l'.
Proof. unfold count_present. by rewrite List.filter_app, length_app. Qed.



Lemma ascending_pairwise (keys : list cell) :
  (forall i a b, keys !! i = Some a -> keys !! S i = Some b -> sort_le a b = true) ->
  forall i j a b, i < j -> keys !! i = Some a -> keys !! j = Some b ->
    sort_le a b = true.
Proof.
  intros Hadj i j. revert i. induction j as [|j IH]; intros i a b Hij Hi Hj; [lia|].
  assert (is_Some (keys !! j)) as [c Hc].
  { apply lookup_lt_is_Some. apply lookup_lt_Some in Hj. lia. }
  pose proof (Hadj j c b Hc Hj) as Hcb.
  destruct (decide (i = j)) as [->|Hne].
  - rewrite Hi in Hc. by inversion Hc; subst.
  - apply (sort_le_trans a c b); [|done]. apply (IH i); [lia|done..].
Qed.

Lemma lexsort_ascending (keys : list cell) :
  (forall i a b, keys !! i = Some a -> keys !! S i = Some b -> sort_le a b = true) ->
  lexsort keys = seq 0 (length keys).
Proof.
  intros Hadj. symmetry. apply lexsort_unique. split; [done|].
  intros i j p q Hij Hp Hq.
  apply lookup_seq in Hp as [-> Hi]. apply lookup_seq in Hq as [-> Hj]. simpl.
  destruct (lookup_lt_is_Some_2 keys i Hi) as [a Ha].
  destruct (lookup_lt_is_Some_2 keys j Hj) as [b Hb].
  exists a, b. repeat split; try done.
  by apply (ascending_pairwise keys Hadj i j).
Qed.



Lemma assembled_missing_last (datasets : list Dataset) (ns : list nat) out times :
  Forall2 measurement_record ns datasets ->
  assemble datasets = Ok out ->
  values <$> out !! "ctd_time" = Some times ->
  forall i j c, i < j -> times !! i = Some NaN -> times !! j = Some c -> c = NaN.
Proof.
  intros Hrec H Htimes i j c Hij Hi Hj.
  assert (Hne : datasets <> []).
  { intros ->. unfold assemble in H. simpl in H. done. }
  rewrite (assemble_Ok ns datasets Hne Hrec) in H. inversion H; subst out.
  destruct (assembled datasets (sum_list ns) !! "ctd_time") as [key|] eqn:Hkey;
    [|done].
  simpl in Htimes. inversion Htimes; subst times.
  destruct (assembled_var ns datasets _ _ Hrec Hkey) as (_ & _ & Hval).
  rewrite Hval in Hi, Hj. unfold take_at in Hi, Hj.
  apply list_lookup_fmap_Some in Hi as (p & Hpa & Hp).
  apply list_lookup_fmap_Some in Hj as (q & Hqc & Hq).
  destruct (lexsort_spec (column datasets "ctd_time")) as (_ & _ & Hst).
  destruct (Hst i j p q Hij Hp Hq) as (a & b & Ha & Hb & Hle & _).
  rewrite Ha in Hpa. rewrite Hb in Hqc. simpl in *. subst a c.
  by destruct b.
Qed.

Lemma missing_last_split (l : list cell) :
  (forall i j c, i < j -> l !! i = Some NaN -> l !! j = Some c -> c = NaN) ->
  exists zs m, l = (Num <$> zs) ++ replicate m NaN.
Proof.
  induction l as [|a l IH]; intros H.
  - by exists [], 0.
  - destruct a as [|z].
    + exists [], (S (length l)). simpl. f_equal. symmetry.
      apply replicate_as_Forall. split; [done|].
      apply Forall_lookup. intros j c Hj. symmetry.
      apply (H 0 (S j) c); [lia|done..].
    + destruct IH as (zs & m & ->).
      { intros i j c Hij Hi Hj. apply (H (S i) (S j) c); [lia|done..]. }
      by exists (z :: zs), m.
Qed.

(** X23. Samples without a time come last: the assembled measurement times
    are the times that are present, followed by the missing ones and
    nothing else; once a time is missing every later one is missing too. *)
Theorem X23_missing_times_last (datasets : list Dataset) (ns : list nat) out times :
  Forall2 measurement_record ns datasets ->
  assemble datasets = Ok out ->
  values <$> out !! "ctd_time" = Some times ->
  exists zs m, times = (Num <$> zs) ++ replicate m NaN.
Proof.
  intros Hrec H Htimes. apply missing_last_split.
  by apply (assembled_missing_last datasets ns out).
Qed.

Lemma X23_witness :
  exists zs m, [Num 50; Num 100; NaN] = (Num <$> zs) ++ replicate m NaN.
Proof.
  apply (X23_missing_times_last [record_missing_time] [3]
           (returned (assemble [record_missing_time]))).
  - by_evaluation.
  - vm_compute. reflexivity.
  - vm_compute. reflexivity.
Defined.

Lemma assembled_record ns (datasets : list Dataset) :
  datasets <> [] -> Forall2 measurement_record ns datasets ->
  measurement_record (sum_list ns) (assembled datasets (sum_list ns)).
Proof.
  intros Hne Hrec. split.
  - intros x v Hv. left.
    destruct (assembled_var ns datasets x v Hrec Hv) as (_ & Hlen & _).
    by apply assembled_lookup in Hv as (Hs & _).
  - assert (Hin : "ctd_time" ∈ dom (assembled datasets (sum_list ns))).
    { apply assembled_dom. destruct Hrec as [|n ds ? ? [_ Hctd] _]; [done|].
      exists ds. split; [apply list_elem_of_here|]. apply elem_of_dom.
      by destruct (ds !! "ctd_time"). }
    apply elem_of_dom in Hin as [v Hv]. rewrite Hv. simpl.
    by apply assembled_lookup in Hv as (-> & _).
Qed.

(** X22. Assembling an assembled trajectory changes nothing: the result of
    [assemble], given back to it as the only dive, is returned as it is. *)
Theorem X22_assembly_idempotent (datasets : list Dataset) (ns : list nat) out :
  Forall2 measurement_record ns datasets ->
  assemble datasets = Ok out ->
  assemble [out] = Ok out.
Proof.
  intros Hrec H.
  assert (Hne : datasets <> []).
  { intros ->. unfold assemble in H. simpl in H. done. }
  rewrite (assemble_Ok ns datasets Hne Hrec) in H. inversion H as [Hout].
  pose proof (assembled_record ns datasets Hne Hrec) as Hrec1.
  set (tr := assembled datasets (sum_list ns)) in *.
  assert (Hrec' : Forall2 measurement_record [sum_list ns] [tr])
    by (constructor; [done | constructor]).
  rewrite (assemble_Ok [sum_list ns] [tr]); [|done|done]. f_equal.
  assert (Hcol : forall x v, tr !! x = Some v -> column [tr] x = values v).
  { intros x v Hv. unfold column, piece. simpl. rewrite Hv, app_nil_r.
    unfold expand. rewrite decide_True; [done|].
    destruct (assembled_var ns datasets x v Hrec Hv) as (-> & _).
    apply list_elem_of_here. }
  destruct Hrec1 as [_ Hctd].
  destruct (tr !! "ctd_time") as [key|] eqn:Hkey; [|done].
  assert (Hid : lexsort (values key) = seq 0 (sum_list ns)).
  { destruct (assembled_var ns datasets _ _ Hrec Hkey) as (_ & Hlen & Hval).
    rewrite <- Hlen. apply lexsort_ascending. rewrite Hval. apply sorted_times. }
  apply map_eq. intros x. unfold assembled at 1.
  rewrite map_lookup_imap. simpl.
  rewrite (right_id_L ∅ (∪) tr).
  destruct (tr !! x) as [v|] eqn:Hv; [|done]. simpl. f_equal.
  rewrite (Hcol _ _ Hkey), (Hcol _ _ Hv), Hid.
  destruct (assembled_var ns datasets x v Hrec Hv) as (_ & Hlen & _).
  pose proof (proj1 (assembled_lookup datasets (sum_list ns) x v Hv)) as Hs.
  rewrite <- Hlen at 2. rewrite take_at_seq.
  rewrite Nat.add_0_r. destruct v as [sz vals ats]. simpl in *. by subst sz.
Qed.

Lemma X22_witness :
  assemble [returned (assemble [recordA; recordB])]
    = Ok (returned (assemble [recordA; recordB])).
Proof.
  apply (X22_assembly_idempotent [recordA; recordB] [3; 2]).
  - by_evaluation.
  - vm_compute. reflexivity.
Defined.

(** ** Listings, the registry and the source *)

Lemma elem_of_nc_links hrefs f :
  f ∈ nc_links hrefs <-> Some f ∈ hrefs /\ endswith f ".nc" = true.
Proof.
  induction hrefs as [|[h|] rest IH]; simpl.
  - split; [by intros ?%elem_of_nil | by intros [?%elem_of_nil _]].
  - destruct (negb (String.eqb h "") && endswith h ".nc") eqn:E.
    + apply andb_true_iff in E as [_ E].
      rewrite !elem_of_cons, IH. split.
      * intros [-> | [? ?]]; [split; [by left | done] | split; [by right | done]].
      * intros [[[= ->] | ?] ?]; [by left | by right].
    + rewrite IH, elem_of_cons. split; [intros [? ?]; split; [by right | done]|].
      intros [[[= ->] | ?] Hext]; [|done]. exfalso.
      apply andb_false_iff in E as [E | E]; [|congruence].
      apply negb_false_iff, String.eqb_eq in E. subst. done.
  - rewrite IH, elem_of_cons. split; [intros [? ?]; split; [by right | done]|].
    intros [[? | ?] ?]; done.
Qed.

(** X24. The names [list_files_in_https_server] returns are exactly the
    link targets of the page that end in [.nc], in page order; so each of
    them is a candidate for [load_dataset], whose own test of the extension
    removes none. *)
Theorem X24_listed_links_are_candidates hrefs :
  (forall f, f ∈ nc_links hrefs <-> Some f ∈ hrefs /\ endswith f ".nc" = true) /\
  sublist (Some <$> nc_links hrefs) hrefs /\
  candidates (nc_links hrefs) = nc_links hrefs.
Proof.
  split; [apply elem_of_nc_links|]. split.
  - induction hrefs as [|[h|] rest IH]; simpl; [constructor| |by apply sublist_cons].
    destruct (negb (String.eqb h "") && endswith h ".nc").
    + simpl. by apply sublist_skip.
    + by apply sublist_cons.
  - unfold candidates.
    assert (Hall : Forall (fun f => endswith f ".nc" = true) (nc_links hrefs)).
    { apply Forall_forall. intros f Hf. by apply elem_of_nc_links in Hf as [_ ?]. }
    induction Hall as [|f l Hf _ IH]; [done|]. simpl. by rewrite Hf, IH.
Qed.

Lemma registry_lookup (file_hash : string -> string)
    (path_join : string -> string -> string) (directory : string)
    (files : list string) :
  forall (acc : gmap string string) f,
  foldl (fun registry file =>
           if endswith file ".nc"
           then <[file := "sha256:" +:+ file_hash (path_join directory file)]> registry
           else registry) acc files !! f =
  if decide (f ∈ files /\ endswith f ".nc" = true)
  then Some ("sha256:" +:+ file_hash (path_join directory f))
  else acc !! f.
Proof.
  induction files as [|file rest IH]; intros acc f; cbn [foldl].
  - rewrite decide_False; [done|]. by intros [?%elem_of_nil _].
  - rewrite IH. destruct (decide (f ∈ rest /\ endswith f ".nc" = true)) as [[Hin Hext]|Hn].
    + rewrite decide_True; [done|]. split; [by right | done].
    + destruct (endswith file ".nc") eqn:E.
      * destruct (decide (file = f)) as [->|Hne].
        -- rewrite lookup_insert_eq, decide_True; [done|]. split; [by left | done].
        -- rewrite lookup_insert_ne by done. rewrite decide_False; [done|].
           intros [[? | ?]%elem_of_cons ?]; [congruence | tauto].
      * rewrite decide_False; [done|].
        intros [[-> | ?]%elem_of_cons ?]; [congruence | tauto].
Qed.

(** X25. The registry built from a directory has one entry for each listed
    file that ends in [.nc], the text [sha256:] followed by the hash of
    that file, and no entry for anything else; [load_sample_dataset] on
    such a registry therefore fetches exactly those files and raises
    [ValueError] for every other name. *)
Theorem X25_registry_of_directory
    file_hash path_join directory files (fetch : string -> result Dataset) name :
  let built := create_pooch_registry_from_directory file_hash path_join
                 directory files in
  built !! name =
    (if decide (name ∈ files /\ endswith name ".nc" = true)
     then Some ("sha256:" +:+ file_hash (path_join directory name))
     else None) /\
  load_sample_dataset built fetch name =
    (if decide (name ∈ files /\ endswith name ".nc" = true)
     then fetch name else Raise ValueError).
Proof.
  intros built.
  assert (Hlook : built !! name =
    (if decide (name ∈ files /\ endswith name ".nc" = true)
     then Some ("sha256:" +:+ file_hash (path_join directory name))
     else None)).
  { unfold built, create_pooch_registry_from_directory.
    rewrite registry_lookup. by rewrite lookup_empty. }
  split; [done|]. unfold load_sample_dataset.
  destruct (decide (name ∈ files /\ endswith name ".nc" = true)).
  - rewrite decide_True; [done|]. apply elem_of_dom. by rewrite Hlook.
  - rewrite decide_False; [done|]. intros Hin%elem_of_dom.
    rewrite Hlook in Hin. by destruct Hin.
Qed.

(** X26. The source of [load_dataset].  A source that is neither a URL
    nor a directory raises [ValueError] before anything is listed.  For a
    URL the files are loaded through [load_sample_dataset], so a selected
    file that the built-in registry does not know stops the load: with
    [ValueError] when it is the first selected file. *)
Theorem X26_source_dispatch (env : collaborators) source start_profile end_profile :
  (is_url source = false -> isdir env source = false ->
   load_dataset_from env source start_profile end_profile = Raise ValueError) /\
  (forall hrefs selected file,
     is_url source = true -> get_anchors env source = Ok hrefs ->
     select_files py_int start_profile end_profile (nc_links hrefs) = Ok selected ->
     file ∈ selected -> file ∉ dom (registry env) ->
     to_option (load_dataset_from env source start_profile end_profile) = None /\
     (head selected = Some file ->
      load_dataset_from env source start_profile end_profile = Raise ValueError)).
Proof.
  split.
  - intros Hurl Hdir. unfold load_dataset_from. by rewrite Hurl, Hdir.
  - intros hrefs selected file Hurl Hget Hsel Hin Hreg.
    unfold load_dataset_from, list_files_in_https_server.
    rewrite Hurl, Hget. simpl.
    assert (Hfail : load_sample_dataset (registry env) (fetch_open env) file
                    = Raise ValueError).
    { unfold load_sample_dataset. by rewrite decide_False. }
    split.
    + apply (load_dataset_file_fails _ _ _ _ selected file); [done..|].
      by rewrite Hfail.
    + intros Hhead. unfold load_dataset. rewrite Hsel. simpl.
      destruct selected as [|f rest]; [done|]. simpl in Hhead.
      inversion Hhead; subst f. simpl. by rewrite Hfail.
Qed.

Lemma X26_witness :
  load_dataset_from env_unregistered "ftp://example.org/" None None
    = Raise ValueError.
Proof.
  apply (proj1 (X26_source_dispatch env_unregistered "ftp://example.org/"
                  None None)); reflexivity.
Defined.

(** ** The vocabulary tables *)

(** X27. The table of standard names gives every variable a name of its
    own (no two variables are renamed to the same name), renames none of
    the variables that are on the list to remove, and knows the measurement
    times and the three variables that [add_gps_coordinates] creates. *)
Theorem X27_standard_names_table :
  (forall x y name,
     standard_names !! x = Some name -> standard_names !! y = Some name ->
     x = y) /\
  (forall x, x ∈ vars_to_remove -> standard_names !! x = None) /\
  (forall x, x = "ctd_time" \/ aligned x -> is_Some (standard_names !! x)).
Proof.
  split; [|split].
  - assert (H : map_Forall (fun x n =>
                  map_Forall (fun y m => n = m -> x = y) standard_names)
                standard_names) by by_evaluation.
    intros x y name Hx Hy. by apply (H x name Hx y name Hy).
  - assert (H : Forall (fun x => standard_names !! x = None) vars_to_remove)
      by by_evaluation.
    rewrite Forall_forall in H. exact H.
  - intros x [-> | [-> | [-> | ->]]]; vm_compute; eauto.
Qed.

(** X28. The unit tables agree with each other.  A normalised unit string
    is not normalised again; a unit has the same conversion factor before
    and after normalisation of its string; and each preferred unit is
    already normalised and is the target of some conversion. *)
Theorem X28_unit_tables_agree :
  (forall u f, unit_str_format !! u = Some f -> unit_str_format !! f = None) /\
  (forall u f c,
     unit_str_format !! u = Some f -> unit_conversion !! u = Some c ->
     exists c', unit_conversion !! f = Some c' /\ (factor c' == factor c)%Q) /\
  (forall p, p ∈ preferred_units ->
     unit_str_format !! p = None /\
     exists u c, unit_conversion !! u = Some c /\ units_name c = p).
Proof.
  split; [|split].
  - assert (H : map_Forall (fun _ f => unit_str_format !! f = None)
                  unit_str_format) by by_evaluation.
    intros u f Hu. by apply (H u f).
  - assert (H : map_Forall (fun u f =>
                  match unit_conversion !! u with
                  | Some c =>
                      match unit_conversion !! f with
                      | Some c' => Qeq_bool (factor c') (factor c)
                      | None => false
                      end
                  | None => true
                  end = true) unit_str_format) by by_evaluation.
    intros u f c Hu Hc. specialize (H u f Hu). simpl in H. rewrite Hc in H.
    destruct (unit_conversion !! f) as [c'|]; [|done].
    exists c'. split; [done|]. by apply Qeq_bool_iff.
  - intros p Hp. repeat (apply elem_of_cons in Hp as [-> | Hp]).
    + split; [vm_compute; reflexivity|].
      exists "cm s-1". eexists. split; [vm_compute; reflexivity | reflexivity].
    + split; [vm_compute; reflexivity|].
      exists "Pa". eexists. split; [vm_compute; reflexivity | reflexivity].
    + split; [vm_compute; reflexivity|].
      exists "mS cm-1". eexists. split; [vm_compute; reflexivity | reflexivity].
    + by apply elem_of_nil in Hp.
Qed.
